(** * google-drive-upload-git-action: the upload resolution logic of main.go

    A shallow embedding of [main.go].  The program is a sequence of calls to
    the operating system (glob, lstat, open), to the GitHub Actions toolkit
    (inputs, log lines, fatal exit) and to the Drive v3 client (Files.List,
    Files.Create, Files.Update).  Those collaborators are modelled by a
    read-only [Sys] record, a mutable [World] and a chronological trace of
    [Event]s; the Go functions become computations in the monad [M]. *)

From Stdlib Require Import String Ascii List Bool Arith Lia.
Import ListNotations.
Local Open Scope string_scope.
Local Open Scope list_scope.

(** ** The Go standard library functions the program calls (Linux build) *)

Module GoLib.

(** [os.PathSeparator] and [os.IsPathSeparator] on Linux. *)
Definition PathSeparator : ascii := "/"%char.
Definition IsPathSeparator (c : ascii) : bool := Ascii.eqb c PathSeparator.

(** [strconv.ParseBool]: the value and whether an error is returned. *)
Definition ParseBool (str : string) : bool * bool :=
  if existsb (String.eqb str) ["1"; "t"; "T"; "true"; "TRUE"; "True"]
  then (true, false)
  else if existsb (String.eqb str) ["0"; "f"; "F"; "false"; "FALSE"; "False"]
  then (false, false)
  else (false, true).

(** [strings.Split s sep] for the one-byte separator the program passes:
    a run of [n] separators gives [n + 1] pieces. *)
Fixpoint split_bytes (sep : ascii) (cur : list ascii) (s : list ascii)
  : list (list ascii) :=
  match s with
  | [] => [rev cur]
  | c :: s' =>
      if Ascii.eqb c sep then rev cur :: split_bytes sep [] s'
      else split_bytes sep (c :: cur) s'
  end.

Definition Split (s : string) (sep : ascii) : list string :=
  map string_of_list_ascii (split_bytes sep [] (list_ascii_of_string s)).

(** [strings.TrimSuffix s suffix]. *)
Definition TrimSuffix (s suffix : string) : string :=
  let n := String.length s in
  let k := String.length suffix in
  if Nat.leb k n && String.eqb (substring (n - k) k s) suffix
  then substring 0 (n - k) s
  else s.

(** The loop "strip trailing slashes" shared by [filepath.Base]. *)
Fixpoint strip_trailing (r : list ascii) : list ascii :=
  match r with
  | c :: r' => if IsPathSeparator c then strip_trailing r' else r
  | [] => []
  end.

(** The scan for the last element of [filepath.Base], on the reversed path:
    the bytes after the last separator. *)
Fixpoint last_element (r : list ascii) (acc : list ascii) : list ascii :=
  match r with
  | c :: r' => if IsPathSeparator c then acc else last_element r' (c :: acc)
  | [] => acc
  end.

(** [filepath.Base] (no volume names on Linux). *)
Definition Base (path : string) : string :=
  if String.eqb path "" then "."
  else
    let p := strip_trailing (rev (list_ascii_of_string path)) in
    let e := last_element p [] in
    match e with
    | [] => String PathSeparator ""
    | _ => string_of_list_ascii e
    end.

(** The backtracking loop of [filepath.Clean] for a [..] element:
    [w] is decreased while it is above [dotdot] and the byte at [w] is not a
    separator. *)
Fixpoint backtrack (out : list ascii) (dotdot w : nat) : nat :=
  match w with
  | 0 => 0
  | S w' =>
      if Nat.ltb dotdot w && negb (IsPathSeparator (nth w out " "%char))
      then backtrack out dotdot w'
      else w
  end.

(** Copy of one path element: the bytes up to the next separator and the
    rest of the input. *)
Fixpoint element (p : list ascii) : list ascii * list ascii :=
  match p with
  | [] => ([], [])
  | c :: p' =>
      if IsPathSeparator c then ([], p)
      else let '(e, r) := element p' in (c :: e, r)
  end.

Definition at_end_or_sep (p : list ascii) : bool :=
  match p with
  | [] => true
  | c :: _ => IsPathSeparator c
  end.

(** The main loop of [filepath.Clean]: [p] is the input from index [r] on,
    [out] the buffer up to [w], [dotdot] the index where [..] must stop. *)
Fixpoint clean_loop (fuel : nat) (rooted : bool) (p out : list ascii)
  (dotdot : nat) : list ascii :=
  match fuel with
  | 0 => out
  | S fuel' =>
      match p with
      | [] => out
      | c :: p1 =>
          if IsPathSeparator c then clean_loop fuel' rooted p1 out dotdot
          else if Ascii.eqb c "."%char && at_end_or_sep p1
          then clean_loop fuel' rooted p1 out dotdot
          else if Ascii.eqb c "."%char &&
                  match p1 with
                  | c1 :: p2 => Ascii.eqb c1 "."%char && at_end_or_sep p2
                  | [] => false
                  end
          then
            let p2 := tl p1 in
            if Nat.ltb dotdot (length out) then
              let w := backtrack out dotdot (length out - 1) in
              clean_loop fuel' rooted p2 (firstn w out) dotdot
            else if negb rooted then
              let out1 :=
                if Nat.ltb 0 (length out) then out ++ [PathSeparator] else out in
              let out2 := out1 ++ ["."%char; "."%char] in
              clean_loop fuel' rooted p2 out2 (length out2)
            else clean_loop fuel' rooted p2 out dotdot
          else
            let out1 :=
              if (rooted && negb (Nat.eqb (length out) 1)) ||
                 (negb rooted && negb (Nat.eqb (length out) 0))
              then out ++ [PathSeparator] else out in
            let '(e, r) := element p in
            clean_loop fuel' rooted r (out1 ++ e) dotdot
      end
  end.

(** [filepath.Clean] (no volume names on Linux). *)
Definition Clean (path : string) : string :=
  if String.eqb path "" then "."
  else
    let p := list_ascii_of_string path in
    let rooted := at_end_or_sep p in
    let out :=
      if rooted then clean_loop (S (length p)) rooted (tl p) [PathSeparator] 1
      else clean_loop (S (length p)) rooted p [] 0 in
    match out with
    | [] => "."
    | _ => string_of_list_ascii out
    end.

(** The scan of [filepath.Dir] for the last separator, on the reversed
    path: what is left is the path up to and including that separator. *)
Fixpoint upto_last_separator (r : list ascii) : list ascii :=
  match r with
  | c :: r' => if IsPathSeparator c then r else upto_last_separator r'
  | [] => []
  end.

(** [filepath.Dir] (no volume names on Linux). *)
Definition Dir (path : string) : string :=
  Clean (string_of_list_ascii
           (rev (upto_last_separator (rev (list_ascii_of_string path))))).

End GoLib.

(** ** Data of the program and of its collaborators *)

(** The fields of [drive.File] the program reads or writes.  A composite
    literal leaves the other fields at their zero value. *)
Record DriveFile := mkDriveFile {
  Id : string;
  Name : string;
  MimeType : string;
  Parents : list string
}.

(** An object of the remote store: its metadata and its content. *)
Record RemoteObject := mkRemoteObject {
  meta : DriveFile;
  payload : string
}.

(** Go [error] values: a cause reported by a collaborator, or a wrapping
    made by [fmt.Errorf] with its format and its arguments. *)
Inductive GoError :=
| Cause (what : string)
| Errorf (format : string) (args : list Arg)
with Arg :=
| AStr (s : string)
| AInt (n : nat)
| AList (l : list string)
| AErr (e : GoError).

Inductive Level := LDebug | LInfo | LWarning | LError.

(** What the program does to the outside, in the order it does it.  [Lstat]
    and [Open] are the calls of [uploadToDrive] on a matched file; what
    [filepath.Glob] reads on the disk to expand the pattern leaves no
    event. *)
Inductive Event :=
| Logf (lv : Level) (format : string) (args : list Arg)
| AddMask (secret : string)
| Lstat (path : string)
| Open (path : string)
| FilesList (q : string)
| FilesCreate (f : DriveFile) (media : option string)
| FilesUpdate (fileId : string) (f : DriveFile) (addParents : string)
    (media : string).

(** [*drive.Service]: [drive.NewService] may fail and leave a nil pointer. *)
Inductive Service := NilService | Client.

(** The collaborators the program only reads from. *)
Record Sys := mkSys {
  (** [os.Lstat]: [None] when it fails, otherwise [IsDir()] *)
  lstat : string -> option bool;
  (** whether [os.Open] succeeds *)
  can_open : string -> bool;
  (** the bytes read through an open handle *)
  content : string -> string;
  (** [filepath.Glob]: [None] for a malformed pattern *)
  glob : string -> option (list string);
  (** the store's meaning of a search expression *)
  answers : string -> RemoteObject -> bool;
  (** the identifier the store gives to the next created object *)
  fresh_id : list RemoteObject -> string;
  (** [base64.StdEncoding.DecodeString] *)
  base64_decode : string -> option string;
  (** whether [drive.NewService] accepts the credentials *)
  accepts : string -> bool
}.

(** What changes during a run: the remote store, the outcome of the coming
    remote calls ([true]: the call fails; past the end every call succeeds)
    and the local files the program has opened and not closed itself.  The
    Go runtime may close a file that has become unreachable; that is no act
    of the program and is not recorded here. *)
Record World := mkWorld {
  store : list RemoteObject;
  faults : list bool;
  handles : list string
}.

(** ** The monad of the program

    A computation returns a value, or ends the process: [Exit] is the
    [os.Exit(1)] of [githubactions.Fatalf], [Panic] a nil dereference. *)
Inductive Outcome (A : Type) :=
| Ret (a : A)
| Exit
| Panic.

Arguments Ret {A} a.
Arguments Exit {A}.
Arguments Panic {A}.

Definition M (A : Type) : Type := World -> Outcome A * World * list Event.

Definition ret {A} (a : A) : M A := fun w => (Ret a, w, []).

Definition bind {A B} (m : M A) (k : A -> M B) : M B :=
  fun w =>
    match m w with
    | (Ret a, w1, t1) =>
        match k a w1 with
        | (o, w2, t2) => (o, w2, t1 ++ t2)
        end
    | (Exit, w1, t1) => (Exit, w1, t1)
    | (Panic, w1, t1) => (Panic, w1, t1)
    end.

Declare Scope go_scope.
Delimit Scope go_scope with go.
Notation "x <- m ;; k" := (bind m (fun x => k))
  (at level 100, m at next level, right associativity) : go_scope.
Notation "m ;; k" := (bind m (fun _ => k))
  (at level 100, right associativity) : go_scope.
Local Open Scope go_scope.

Definition emit (e : Event) : M unit := fun w => (Ret tt, w, [e]).

(** [githubactions.Debugf], [Infof], [Warningf], [Errorf]. *)
Definition logf (lv : Level) (format : string) (args : list Arg) : M unit :=
  emit (Logf lv format args).

(** [githubactions.Fatalf]: an error line, then [os.Exit(1)]. *)
Definition Fatalf {A} (format : string) (args : list Arg) : M A :=
  fun w => (Exit, w, [Logf LError format args]).

Definition outcome {A} (r : Outcome A * World * list Event) : Outcome A :=
  fst (fst r).
Definition world {A} (r : Outcome A * World * list Event) : World :=
  snd (fst r).
Definition trace {A} (r : Outcome A * World * list Event) : list Event :=
  snd r.

(** ** The operating system and the Drive client *)

(** A Go call that returns a value and an [error]. *)
Inductive Res (A : Type) :=
| Ok (a : A)
| Err (e : GoError).

Arguments Ok {A} a.
Arguments Err {A} e.

Section Program.

Variable sys : Sys.

(** [os.Lstat]: [None] for an error, otherwise [fi.IsDir()]. *)
Definition os_Lstat (filename : string) : M (option bool) :=
  emit (Lstat filename) ;; ret (lstat sys filename).

(** [os.Open]: on success the program has one more file to close. *)
Definition os_Open (filename : string) : M (Res string) :=
  emit (Open filename) ;;
  if can_open sys filename
  then fun w =>
         (Ret (Ok filename),
          mkWorld (store w) (faults w) (handles w ++ [filename]), [])
  else ret (Err (Cause "open")).

(** The fate of the next remote call, which is then used up. *)
Definition next_fails (w : World) : bool := hd false (faults w).

Definition drawn (w : World) : World :=
  mkWorld (store w) (tl (faults w)) (handles w).

Definition next_fault : M bool := fun w => (Ret (next_fails w), drawn w, []).

(** Every method of a nil [*drive.Service] dereferences it. *)
Definition deref (svc : Service) : M unit :=
  match svc with
  | Client => ret tt
  | NilService => fun w => (Panic, w, [])
  end.

(** [svc.Files.List().Fields("files(name,id,mimeType,parents)").Q(q)...Do()] *)
Definition Files_List (svc : Service) (q : string) : M (Res (list DriveFile)) :=
  deref svc ;;
  emit (FilesList q) ;;
  bad <- next_fault ;;
  if (bad : bool) then ret (Err (Cause "drive"))
  else fun w => (Ret (Ok (map meta (filter (answers sys q) (store w)))), w, []).

(** [svc.Files.Create(f).Media(file)...Do()]; a folder has no media. *)
Definition Files_Create (svc : Service) (f : DriveFile)
  (media : option string) : M (Res DriveFile) :=
  deref svc ;;
  emit (FilesCreate f media) ;;
  bad <- next_fault ;;
  if (bad : bool) then ret (Err (Cause "drive"))
  else fun w =>
         let d := mkDriveFile (fresh_id sys (store w)) (Name f) (MimeType f)
                    (Parents f) in
         let bytes := match media with
                      | Some file => content sys file
                      | None => ""
                      end in
         (Ret (Ok d),
          mkWorld (store w ++ [mkRemoteObject d bytes]) (faults w) (handles w),
          []).

Definition add_parent (p : string) (ps : list string) : list string :=
  if existsb (String.eqb p) ps then ps else ps ++ [p].

(** What the store does to the object an update addresses: the metadata
    sent replace the old ones, the media replace the content, and the
    parent of [AddParents] joins the parents. *)
Definition updated (f : DriveFile) (addParents : string) (bytes : string)
  (o : RemoteObject) : RemoteObject :=
  mkRemoteObject
    (mkDriveFile (Id (meta o)) (Name f) (MimeType f)
       (add_parent addParents (Parents (meta o))))
    bytes.

Definition has_id (fileId : string) (o : RemoteObject) : bool :=
  String.eqb (Id (meta o)) fileId.

(** [svc.Files.Update(fileId, f).AddParents(p).Media(file)...Do()] *)
Definition Files_Update (svc : Service) (fileId : string) (f : DriveFile)
  (addParents : string) (file : string) : M (Res DriveFile) :=
  deref svc ;;
  emit (FilesUpdate fileId f addParents file) ;;
  bad <- next_fault ;;
  if (bad : bool) then ret (Err (Cause "drive"))
  else fun w =>
         match find (has_id fileId) (store w) with
         | None => (Ret (Err (Cause "drive: file not found")), w, [])
         | Some o =>
             let o' := updated f addParents (content sys file) o in
             (Ret (Ok (meta o')),
              mkWorld
                (map (fun x => if has_id fileId x then
                                 updated f addParents (content sys file) x
                               else x) (store w))
                (faults w) (handles w),
              [])
         end.

(** ** main.go *)

Definition filenameInput := "filename".
Definition nameInput := "name".
Definition folderIdInput := "folderId".
Definition credentialsInput := "credentials".
Definition overwriteInput := "false".
Definition mimeTypeInput := "mimeType".
Definition useCompleteSourceName := "useCompleteSourceFilenameAsName".
Definition mirrorDirectoryStructureInput := "mirrorDirectoryStructureInput".
Definition namePrefixInput := "namePrefix".

Definition folderMimeType := "application/vnd.google-apps.folder".

Definition uploadToDrive (svc : Service) (filename folderId : string)
  (driveFile : option DriveFile) (name mimeType : string)
  : M (option GoError) :=
  fi <- os_Lstat filename ;;
  match fi with
  | None => ret (Some (Errorf "unable to stat file: %w" [AErr (Cause "lstat")]))
  | Some isDir =>
      if (isDir : bool) then
        logf LInfo "%s is a directory. skipping upload." [AStr filename] ;;
        ret None
      else
        file <- os_Open filename ;;
        match file with
        | Err err =>
            ret (Some (Errorf
                         "opening file with filename: %s failed with error: %w"
                         [AStr filename; AErr err]))
        | Ok file =>
            r <- match driveFile with
                 | Some driveFile =>
                     let f := mkDriveFile "" name mimeType [] in
                     Files_Update svc (Id driveFile) f folderId file
                 | None =>
                     let f := mkDriveFile "" name mimeType [folderId] in
                     Files_Create svc f (Some file)
                 end ;;
            match r with
            | Err err =>
                ret (Some (Errorf
                             "uploading file with filename: %s failed with error: %w"
                             [AStr filename; AErr err]))
            | Ok _ =>
                logf LDebug "uploaded/updated file." [] ;;
                ret None
            end
        end
  end.

(** The loop [for _, p := range i.Parents] of [createDriveDirectory]; the
    state is [(foundFolders, nextFolderId)].  [foundFolders] is a Go [int];
    it counts entries of one response and cannot wrap around. *)
Fixpoint folderParents (folderId name : string) (i : DriveFile)
  (ps : list string) (st : nat * string) : M (nat * string) :=
  match ps with
  | [] => ret st
  | p :: ps' =>
      if String.eqb p folderId then
        logf LInfo "Found existing folder %s." [AStr name] ;;
        folderParents folderId name i ps' (S (fst st), Id i)
      else folderParents folderId name i ps' st
  end.

(** The loop [for _, i := range r.Files] of [createDriveDirectory]. *)
Fixpoint folderFiles (folderId name : string) (files : list DriveFile)
  (st : nat * string) : M (nat * string) :=
  match files with
  | [] => ret st
  | i :: files' =>
      st' <- folderParents folderId name i (Parents i) st ;;
      folderFiles folderId name files' st'
  end.

Definition createDriveDirectory (svc : Service) (folderId name : string)
  : M (string * option GoError) :=
  logf LInfo "Checking for existing folder %s" [AStr name] ;;
  r <- Files_List svc
         ("name='" ++ name ++ "'" ++ " and mimeType='application/vnd.google-apps.folder'") ;;
  match r with
  | Err err => ret ("", Some (Errorf "unable to retrieve files: %w" [AErr err]))
  | Ok files =>
      st <- folderFiles folderId name files (0, "") ;;
      let '(foundFolders, nextFolderId) := st in
      if Nat.eqb foundFolders 0 then
        logf LInfo "Creating folder: %s" [AStr name] ;;
        let f := mkDriveFile "" name folderMimeType [folderId] in
        d <- Files_Create svc f None ;;
        match d with
        | Err err =>
            ret ("", Some (Errorf "creating folder failed with error: %w"
                             [AErr err]))
        | Ok d => ret (Id d, None)
        end
      else ret (nextFolderId, None)
  end.

(** The loop [for _, p := range i.Parents] of [uploadFile]: whether it
    leaves [found] set. *)
Fixpoint fileParents (folderId : string) (ps : list string) : M bool :=
  match ps with
  | [] => ret false
  | p :: ps' =>
      if String.eqb p folderId then
        logf LDebug "file found in expected folder" [] ;;
        ret true
      else fileParents folderId ps'
  end.

(** The loop [for _, i := range r.Files] of [uploadFile]; the state is
    [currentFile]. *)
Fixpoint currentFiles (folderId name : string) (files : list DriveFile)
  (currentFile : option DriveFile) : M (option DriveFile) :=
  match files with
  | [] => ret currentFile
  | i :: files' =>
      if String.eqb name (Name i) then
        found <- fileParents folderId (Parents i) ;;
        if (found : bool) then ret (Some i)
        else currentFiles folderId name files' (Some i)
      else currentFiles folderId name files' currentFile
  end.

Definition uploadFile (svc : Service) (filename folderId name mimeType : string)
  (overwriteFlag : bool) : M (option GoError) :=
  logf LInfo "target file name: %s" [AStr name] ;;
  if negb overwriteFlag then
    uploadToDrive svc filename folderId None name mimeType
  else
    r <- Files_List svc ("name='" ++ name ++ "'") ;;
    match r with
    | Err err => ret (Some (Errorf "unable to retrieve files: %w" [AErr err]))
    | Ok files =>
        logf LInfo "Files: %d" [AInt (length files)] ;;
        currentFile <- currentFiles folderId name files None ;;
        match currentFile with
        | None =>
            logf LInfo "No similar files found. Creating a new file" [] ;;
            uploadToDrive svc filename folderId None name mimeType
        | Some f =>
            logf LInfo "Overwriting file: %s (%s)" [AStr (Name f); AStr (Id f)] ;;
            uploadToDrive svc filename folderId currentFile name mimeType
        end
    end.

Definition missingInput {A} (inputName : string) : M A :=
  Fatalf "missing input '%v'" [AStr inputName].

End Program.

(** The variables of [main] the loop over the files reads. *)
Record Vars := mkVars {
  files : list string;
  overwriteFlag : bool;
  name : string;
  originalFolderId : string;
  mimeType : string;
  useCompleteSourceFilenameAsNameFlag : bool;
  mirrorDirectoryStructureFlag : bool;
  filenamePrefix : string;
  svc : Service
}.

(** [useSourceFilename := len(files) > 1] *)
Definition useSourceFilename (v : Vars) : bool := Nat.ltb 1 (length (files v)).

(** The name chosen for [file] before the prefix is added. *)
Definition targetNameOf (v : Vars) (file : string) : string :=
  let targetName := name v in
  if useCompleteSourceFilenameAsNameFlag v then file
  else if useSourceFilename v || String.eqb (name v) "" then GoLib.Base file
  else targetName.

(** [strings.Split(filepath.Dir(file), string(os.PathSeparator))] *)
Definition directoryStructureOf (file : string) : list string :=
  GoLib.Split (GoLib.Dir file) GoLib.PathSeparator.

Definition withPrefix (v : Vars) (targetName : string) : string :=
  if negb (String.eqb (filenamePrefix v) "") then filenamePrefix v ++ targetName
  else targetName.

Section Orchestrator.

Variable sys : Sys.

(** The loop [for _, dir := range directoryStructure]; the state is
    [folderId]. *)
Fixpoint mirrorDirectories (s : Service) (folderId : string)
  (directoryStructure : list string) : M string :=
  match directoryStructure with
  | [] => ret folderId
  | dir :: rest =>
      r <- createDriveDirectory sys s folderId dir ;;
      match snd r with
      | Some err =>
          Fatalf "creating directory %s failed with error: %s"
            [AStr dir; AErr err]
      | None => mirrorDirectories s (fst r) rest
      end
  end.

(** One turn of the loop [for _, file := range files].  [folderId] is the
    variable as the previous turn left it; the turn returns it as it leaves
    it. *)
Definition processFile (v : Vars) (folderId : string) (file : string)
  : M string :=
  let folderId := originalFolderId v in
  logf LInfo "Processing file %s" [AStr file] ;;
  folderId <-
    (if mirrorDirectoryStructureFlag v then
       let directoryStructure := directoryStructureOf file in
       logf LInfo "Mirroring directory structure: %v"
         [AList directoryStructure] ;;
       mirrorDirectories (svc v) folderId directoryStructure
     else ret folderId) ;;
  let targetName := targetNameOf v file in
  (if String.eqb targetName "" then
     Fatalf "could not discover target file name" []
   else ret tt) ;;
  let targetName := withPrefix v targetName in
  err <- uploadFile sys (svc v) file folderId targetName (mimeType v)
           (overwriteFlag v) ;;
  match err with
  | Some err => Fatalf "uploading file failed with error: %s" [AErr err]
  | None => ret folderId
  end.

(** The loop [for _, file := range files]. *)
Fixpoint processFiles (v : Vars) (folderId : string) (fs : list string)
  : M string :=
  match fs with
  | [] => ret folderId
  | file :: rest =>
      folderId' <- processFile v folderId file ;;
      processFiles v folderId' rest
  end.

(** [githubactions.GetInput]. *)
Variable GetInput : string -> string.

(** The three blocks of [main] that read a flag: an empty input is reported
    at level [lv] and gives false, any other input goes through
    [strconv.ParseBool], whose error is dropped. *)
Definition flagInput (lv : Level) (inputName : string) : M bool :=
  let value := GetInput inputName in
  if String.eqb value "" then
    logf lv "%s is disabled." [AStr inputName] ;;
    ret false
  else ret (fst (GoLib.ParseBool value)).

Definition newline : string := String (ascii_of_nat 10) EmptyString.

Definition main : M unit :=
  let filename := GetInput filenameInput in
  (if String.eqb filename "" then missingInput filenameInput else ret tt) ;;
  let globbed := glob sys filename in
  let files := match globbed with Some l => l | None => [] end in
  logf LInfo "files: %v" [AList files] ;;
  (match globbed with
   | None =>
       Fatalf "Invalid filename pattern: %s"
         [AErr (Cause "syntax error in pattern")]
   | Some _ => ret tt
   end) ;;
  (if Nat.eqb (length files) 0 then
     Fatalf "No file found! pattern: %s" [AStr filename]
   else ret tt) ;;
  overwriteFlag <- flagInput LWarning overwriteInput ;;
  let name := GetInput nameInput in
  let folderId := GetInput folderIdInput in
  (if String.eqb folderId "" then missingInput folderIdInput else ret tt) ;;
  let mimeType := GetInput mimeTypeInput in
  useCompleteSourceFilenameAsNameFlag <- flagInput LInfo useCompleteSourceName ;;
  mirrorDirectoryStructureFlag <-
    flagInput LInfo mirrorDirectoryStructureInput ;;
  let filenamePrefix := GetInput namePrefixInput in
  let credentials := GetInput credentialsInput in
  (if String.eqb credentials "" then missingInput credentialsInput
   else ret tt) ;;
  emit (AddMask credentials) ;;
  match base64_decode sys credentials with
  | None =>
      Fatalf "base64 decoding of 'credentials' failed with error: %v"
        [AErr (Cause "illegal base64 data")]
  | Some decodedCredentials =>
      let creds := GoLib.TrimSuffix decodedCredentials newline in
      emit (AddMask creds) ;;
      svc <-
        (if accepts sys creds then ret Client
         else
           logf LError "creating drive client failed with error: %s"
             [AErr (Cause "drive.NewService")] ;;
           ret NilService) ;;
      let originalFolderId := folderId in
      let v := mkVars files overwriteFlag name originalFolderId mimeType
                 useCompleteSourceFilenameAsNameFlag
                 mirrorDirectoryStructureFlag filenamePrefix svc in
      processFiles v folderId files ;;
      ret tt
  end.

End Orchestrator.

(** ** Observations on a trace *)

Definition is_search (e : Event) : bool :=
  match e with FilesList _ => true | _ => false end.

Definition is_create (e : Event) : bool :=
  match e with FilesCreate _ _ => true | _ => false end.

Definition is_update (e : Event) : bool :=
  match e with FilesUpdate _ _ _ _ => true | _ => false end.

Definition is_open (e : Event) : bool :=
  match e with Open _ => true | _ => false end.

Definition is_log (e : Event) : bool :=
  match e with Logf _ _ _ => true | _ => false end.

(** The remote calls that write to the store. *)
Definition is_write (e : Event) : bool := is_create e || is_update e.

(** The line [uploadFile] prints when it is entered. *)
Definition is_upload (e : Event) : bool :=
  match e with
  | Logf LInfo format _ => String.eqb format "target file name: %s"
  | _ => false
  end.

(** The result of a computation with [pre] put before its trace. *)
Definition after {A} (pre : list Event) (r : Outcome A * World * list Event)
  : Outcome A * World * list Event :=
  (outcome r, world r, pre ++ trace r).

(** The process ended instead of returning. *)
Definition aborted {A} (o : Outcome A) : Prop :=
  match o with Ret _ => False | _ => True end.

(** The search expressions the program builds. *)
Definition nameQuery (name : string) : string := ("name='" ++ name ++ "'")%string.

Definition folderQuery (name : string) : string :=
  ("name='" ++ name ++ "'" ++ " and mimeType='application/vnd.google-apps.folder'")%string.

(** The response of [Files.List] to the expression [q]. *)
Definition listing (sys : Sys) (q : string) (w : World) : list DriveFile :=
  map meta (filter (answers sys q) (store w)).

Definition in_folder (folderId : string) (i : DriveFile) : bool :=
  existsb (fun p => String.eqb p folderId) (Parents i).

Definition named (name : string) (i : DriveFile) : bool :=
  String.eqb name (Name i).

(** The last element of a list, if any. *)
Definition last_of {A} (l : list A) : option A := last (map Some l) None.

(** ** The loops of the program as functions of the response *)

(** How often [folderId] occurs among the parents of [i]. *)
Definition occurrences (folderId : string) (i : DriveFile) : nat :=
  length (filter (fun p => String.eqb p folderId) (Parents i)).

(** [(foundFolders, nextFolderId)] after the loops of
    [createDriveDirectory] over [files]. *)
Fixpoint foundIn (folderId : string) (files : list DriveFile)
  (st : nat * string) : nat * string :=
  match files with
  | [] => st
  | i :: files' =>
      foundIn folderId files'
        (fst st + occurrences folderId i,
         if in_folder folderId i then Id i else snd st)
  end.

(** [currentFile] after the loop of [uploadFile] over [files]. *)
Fixpoint currentFileOf (folderId name : string) (files : list DriveFile)
  (currentFile : option DriveFile) : option DriveFile :=
  match files with
  | [] => currentFile
  | i :: files' =>
      if named name i then
        if in_folder folderId i then Some i
        else currentFileOf folderId name files' (Some i)
      else currentFileOf folderId name files' currentFile
  end.

(** The object [Files.Create] adds for the metadata [f]. *)
Definition created (sys : Sys) (f : DriveFile) (media : option string)
  (w : World) : RemoteObject :=
  mkRemoteObject
    (mkDriveFile (fresh_id sys (store w)) (Name f) (MimeType f) (Parents f))
    match media with
    | Some file => content sys file
    | None => ""
    end.


Definition foundLine (name : string) : Event :=
  Logf LInfo "Found existing folder %s." [AStr name].

Definition targetLine (name : string) : Event :=
  Logf LInfo "target file name: %s" [AStr name].

(** What [uploadFile] does, with the overwrite flag set, before it calls
    [uploadToDrive]: the search and the lines it prints. *)
Definition searchTrace (sys : Sys) (folderId name : string) (w : World)
  : list Event :=
  let found := listing sys (nameQuery name) w in
  [targetLine name; FilesList (nameQuery name);
   Logf LInfo "Files: %d" [AInt (length found)]]
  ++ (if existsb (fun i => named name i && in_folder folderId i) found
      then [Logf LDebug "file found in expected folder" []] else [])
  ++ [match currentFileOf folderId name found None with
      | None => Logf LInfo "No similar files found. Creating a new file" []
      | Some f =>
          Logf LInfo "Overwriting file: %s (%s)" [AStr (Name f); AStr (Id f)]
      end].

(** The computation has closed every file it opened. *)
Definition released {A} (w : World) (r : Outcome A * World * list Event)
  : Prop :=
  handles (world r) = handles w.

(** The only write of a computation is the create of one object whose one
    parent is [folderId]. *)
Definition creates_in {A} (folderId : string)
  (r : Outcome A * World * list Event) : Prop :=
  exists f media,
    filter is_write (trace r) = [FilesCreate f media] /\
    Parents f = [folderId].

(** What [createDriveDirectory] does before it decides: the line it prints,
    the search, and one line for each occurrence of [folderId] among the
    parents of the folders found. *)
Definition resolveTrace (sys : Sys) (folderId name : string) (w : World)
  : list Event :=
  [Logf LInfo "Checking for existing folder %s" [AStr name];
   FilesList (folderQuery name)]
  ++ repeat (foundLine name)
       (fst (foundIn folderId (listing sys (folderQuery name) w) (0, ""))).

(** The choice of the folder in one turn of the loop, from the root. *)
Definition folderChoice (sys : Sys) (v : Vars) (file : string) : M string :=
  if mirrorDirectoryStructureFlag v then
    bind (logf LInfo "Mirroring directory structure: %v"
            [AList (directoryStructureOf file)])
      (fun _ => mirrorDirectories sys (svc v) (originalFolderId v)
                  (directoryStructureOf file))
  else ret (originalFolderId v).

(** The part of one turn of the loop that follows the choice of the folder:
    the name, the check that it is not empty, the prefix and the upload. *)
Definition nameAndUpload (sys : Sys) (v : Vars) (file folderId : string)
  : M string :=
  bind (if String.eqb (targetNameOf v file) ""
        then Fatalf "could not discover target file name" []
        else ret tt)
    (fun _ =>
       bind (uploadFile sys (svc v) file folderId
               (withPrefix v (targetNameOf v file)) (mimeType v)
               (overwriteFlag v))
         (fun err =>
            match err with
            | Some err =>
                Fatalf "uploading file failed with error: %s" [AErr err]
            | None => ret folderId
            end)).

(** A chain of resolutions: one call of the resolver for each segment, in
    order, the first under [parent] and each next one under the folder the
    call before it returned; [final] is the folder of the last call. *)
Inductive resolved (sys : Sys) (s : Service)
  : string -> list string -> World -> string -> World -> list Event -> Prop :=
| resolved_nil parent w : resolved sys s parent [] w parent w []
| resolved_cons parent segment segments w folder w1 t1 final w2 t2 :
    createDriveDirectory sys s parent segment w = (Ret (folder, None), w1, t1) ->
    resolved sys s folder segments w1 final w2 t2 ->
    resolved sys s parent (segment :: segments) w final w2 (t1 ++ t2).

(** A trace without its printed lines. *)
Definition unlogged (t : list Event) : list Event :=
  filter (fun e => negb (is_log e)) t.

(** Two results that differ at most in what was printed. *)
Definition same_effects {A} (r1 r2 : Outcome A * World * list Event) : Prop :=
  outcome r1 = outcome r2 /\ world r1 = world r2 /\
  unlogged (trace r1) = unlogged (trace r2).

(** ** Further observations *)

(** The calls that reach the store. *)
Definition is_remote (e : Event) : bool := is_search e || is_write e.

(** The events of [uploadToDrive] on the local file and the calls that
    reach the store.  The expansion of the pattern by [filepath.Glob], which
    also reads the file system, leaves no event. *)
Definition is_effect (e : Event) : bool :=
  match e with
  | Lstat _ | Open _ | FilesList _ | FilesCreate _ _ | FilesUpdate _ _ _ _ =>
      true
  | _ => false
  end.

(** The object of the response the overwrite is aimed at when one carries
    the name in the folder. *)
Definition in_place (folderId name : string) (i : DriveFile) : bool :=
  named name i && in_folder folderId i.

(** The value a flag gets from its input. *)
Definition flagOf (GetInput : string -> string) (key : string) : bool :=
  if String.eqb (GetInput key) "" then false
  else fst (GoLib.ParseBool (GetInput key)).

(** The line printed for a flag left empty. *)
Definition flagLines (lv : Level) (GetInput : string -> string) (key : string)
  : list Event :=
  if String.eqb (GetInput key) "" then [Logf lv "%s is disabled." [AStr key]]
  else [].

(** The inputs [main] reads. *)
Definition inputsRead : list string :=
  [filenameInput; overwriteInput; nameInput; folderIdInput; mimeTypeInput;
   useCompleteSourceName; mirrorDirectoryStructureInput; namePrefixInput;
   credentialsInput].

(** The variables of [main] once every check has passed, for the matched
    [files] and the decoded credentials. *)
Definition varsOf (sys : Sys) (GetInput : string -> string)
  (files : list string) (decoded : string) : Vars :=
  mkVars files (flagOf GetInput overwriteInput) (GetInput nameInput)
    (GetInput folderIdInput) (GetInput mimeTypeInput)
    (flagOf GetInput useCompleteSourceName)
    (flagOf GetInput mirrorDirectoryStructureInput)
    (GetInput namePrefixInput)
    (if accepts sys (GoLib.TrimSuffix decoded newline) then Client
     else NilService).

(** What [main] prints and masks before the loop over the files. *)
Definition preludeOf (sys : Sys) (GetInput : string -> string)
  (files : list string) (decoded : string) : list Event :=
  [Logf LInfo "files: %v" [AList files]]
  ++ flagLines LWarning GetInput overwriteInput
  ++ flagLines LInfo GetInput useCompleteSourceName
  ++ flagLines LInfo GetInput mirrorDirectoryStructureInput
  ++ [AddMask (GetInput credentialsInput);
      AddMask (GoLib.TrimSuffix decoded newline)]
  ++ (if accepts sys (GoLib.TrimSuffix decoded newline) then []
      else [Logf LError "creating drive client failed with error: %s"
              [AErr (Cause "drive.NewService")]]).

(** The files of a list that [os.Lstat] reports as not being directories. *)
Definition plainFiles (sys : Sys) (files : list string) : list string :=
  filter (fun f => match lstat sys f with
                   | Some false => true
                   | _ => false
                   end) files.

(** The checks of [main] before the loop: the matched files and the decoded
    credentials when every check passes. *)
Definition accepted (sys : Sys) (GetInput : string -> string)
  : option (list string * string) :=
  if String.eqb (GetInput filenameInput) "" then None
  else
    match glob sys (GetInput filenameInput) with
    | None => None
    | Some files =>
        if Nat.eqb (length files) 0 then None
        else if String.eqb (GetInput folderIdInput) "" then None
        else if String.eqb (GetInput credentialsInput) "" then None
        else
          match base64_decode sys (GetInput credentialsInput) with
          | None => None
          | Some decoded => Some (files, decoded)
          end
    end.

(** A computation that sends nothing to the store and leaves it as it is. *)
Definition offline {A} (m : M A) : Prop :=
  forall w, filter is_remote (trace (m w)) = [] /\ store (world (m w)) = store w.

(** ** The local disk behind [os.Lstat] *)

(** What a path names on the disk. *)
Inductive Node :=
| IsFile
| IsDirectory
| IsLink (target : string).

Definition Disk := string -> option Node.



(** [os.Lstat] on the disk: no link is followed, so [IsDir()] holds for a
    directory only. *)
Definition Lstat_on (disk : Disk) (path : string) : option bool :=
  match disk path with
  | None => None
  | Some IsDirectory => Some true
  | Some _ => Some false
  end.

(** The system [sys] with [os.Lstat] answering from the disk. *)
Definition on_disk (disk : Disk) (sys : Sys) : Sys :=
  mkSys (Lstat_on disk) (can_open sys) (content sys) (glob sys) (answers sys)
    (fresh_id sys) (base64_decode sys) (accepts sys).

(** ** A small system to run the program on *)

Module Demo.

(** The store answers the two expressions the program builds: by name, and
    by name among the folders. *)
Definition sys : Sys :=
  mkSys
    (fun p => if String.eqb p "missing.txt" then None
              else Some (existsb (String.eqb p) ["docs"; "a/b"]))
    (fun p => negb (String.eqb p "locked.txt"))
    (fun p => ("bytes of " ++ p)%string)
    (fun pattern =>
       if String.eqb pattern "[" then None
       else if String.eqb pattern "*.txt" then Some ["report.txt"; "notes.txt"]
       else if String.eqb pattern "none*" then Some []
       else Some [pattern])
    (fun q o =>
       String.eqb q (nameQuery (Name (meta o))) ||
       (String.eqb q (folderQuery (Name (meta o))) &&
        String.eqb (MimeType (meta o)) folderMimeType))
    (fun objects =>
       ("new" ++ String.concat "" (map (fun _ => "+") objects))%string)
    (fun s => if String.eqb s "!" then None else Some s)
    (fun creds => negb (String.eqb creds "rejected")).

Definition object (id name mime : string) (parents : list string) : RemoteObject :=
  mkRemoteObject (mkDriveFile id name mime parents) "old bytes".

Definition blank : World := mkWorld [] [] [].

(** A report that lives in another folder than the target ["root"]. *)
Definition elsewhere : World :=
  mkWorld [object "X" "report.txt" "text/plain" ["other"]] [] [].

(** A report in the target folder that also has a second parent. *)
Definition shared : World :=
  mkWorld [object "R" "report.txt" "text/plain" ["archive"; "root"]] [] [].

(** Two folders named ["a"] under ["root"], and one under ["other"]. *)
Definition twins : World :=
  mkWorld [object "A1" "a" folderMimeType ["root"];
           object "A2" "a" folderMimeType ["root"];
           object "A3" "a" folderMimeType ["other"]] [] [].

Definition inputs (overwrite complete mirror : string) (key : string) : string :=
  if String.eqb key filenameInput then "*.txt"
  else if String.eqb key folderIdInput then "root"
  else if String.eqb key credentialsInput then "secret"
  else if String.eqb key overwriteInput then overwrite
  else if String.eqb key useCompleteSourceName then complete
  else if String.eqb key mirrorDirectoryStructureInput then mirror
  else "".

Definition vars (fs : list string) (overwrite : bool) (name : string)
  (complete mirror : bool) (prefix : string) : Vars :=
  mkVars fs overwrite name "root" "text/plain" complete mirror prefix Client.

End Demo.

(** [GetInput] with the input [key] set to [value]. *)
Definition with_input (GetInput : string -> string) (key value : string)
  : string -> string :=
  fun k => if String.eqb k key then value else GetInput k.

(** A disk with a directory [docs], a link [latest] to it and a file. *)
Module DemoDisk.

Definition disk : Disk :=
  fun path =>
    if String.eqb path "docs" then Some IsDirectory
    else if String.eqb path "latest" then Some (IsLink "docs")
    else if String.eqb path "report.txt" then Some IsFile
    else None.

Definition sys : Sys := on_disk disk Demo.sys.


End DemoDisk.

(** ** Runs of the library functions and of the program *)

Example Base_plain : GoLib.Base "a/b/file.txt" = "file.txt".
Proof. reflexivity. Qed.

Example Base_trailing : GoLib.Base "a/b//" = "b".
Proof. reflexivity. Qed.

Example Base_root : GoLib.Base "///" = "/".
Proof. reflexivity. Qed.

Example Dir_nested : GoLib.Dir "a/b/file.txt" = "a/b".
Proof. reflexivity. Qed.

Example Dir_bare : GoLib.Dir "file.txt" = ".".
Proof. reflexivity. Qed.

Example Dir_dots : GoLib.Dir "a/../../b/./c//d.txt" = "../b/c".
Proof. reflexivity. Qed.

Example Dir_rooted : GoLib.Dir "/a/b/../f" = "/a".
Proof. reflexivity. Qed.

Example Split_nested : GoLib.Split "a/b" "/" = ["a"; "b"].
Proof. reflexivity. Qed.

Example Split_rooted : GoLib.Split "/a" "/" = [""; "a"].
Proof. reflexivity. Qed.

Example ParseBool_yes : GoLib.ParseBool "yes" = (false, true).
Proof. reflexivity. Qed.

Example ParseBool_True : GoLib.ParseBool "True" = (true, false).
Proof. reflexivity. Qed.

Example directoryStructureOf_nested :
  directoryStructureOf "a/b/file.txt" = ["a"; "b"].
Proof. reflexivity. Qed.

Example directoryStructureOf_bare : directoryStructureOf "file.txt" = ["."].
Proof. reflexivity. Qed.

Example main_uploads_each_match :
  let r := main Demo.sys (Demo.inputs "" "" "") Demo.blank in
  outcome r = Ret tt /\
  filter is_write (trace r)
  = [FilesCreate (mkDriveFile "" "report.txt" "" ["root"]) (Some "report.txt");
     FilesCreate (mkDriveFile "" "notes.txt" "" ["root"]) (Some "notes.txt")].
Proof. split; reflexivity. Qed.

Example main_without_match :
  outcome (main Demo.sys
             (with_input (Demo.inputs "" "" "") filenameInput "none*")
             Demo.blank)
  = Exit.
Proof. reflexivity. Qed.

Example main_mirrors_bare_name :
  let r := main Demo.sys (Demo.inputs "" "" "true") Demo.blank in
  map (fun o => (Name (meta o), Parents (meta o))) (store (world r))
  = [(".", ["root"]); ("report.txt", ["new"]); ("notes.txt", ["new"])].
Proof. reflexivity. Qed.

(** ** The monad *)

Lemma bind_ret {A B} (a : A) (k : A -> M B) (w : World) :
  bind (ret a) k w = k a w.
Proof. unfold bind, ret. destruct (k a w) as [[o w'] t]. reflexivity. Qed.

Lemma after_after {A} (p q : list Event) (r : Outcome A * World * list Event) :
  after p (after q r) = after (p ++ q) r.
Proof. destruct r as [[o w] t]. unfold after. cbn. now rewrite app_assoc. Qed.

Lemma bind_emit {B} (e : Event) (k : unit -> M B) (w : World) :
  bind (emit e) k w = after [e] (k tt w).
Proof. unfold bind, emit, after. destruct (k tt w) as [[o w'] t]. reflexivity. Qed.

Lemma bind_logf {B} lv format args (k : unit -> M B) (w : World) :
  bind (logf lv format args) k w = after [Logf lv format args] (k tt w).
Proof. apply bind_emit. Qed.

Lemma bind_bind {A B C} (m : M A) (k : A -> M B) (h : B -> M C) (w : World) :
  bind (bind m k) h w = bind m (fun a => bind (k a) h) w.
Proof.
  unfold bind. destruct (m w) as [[[a| |] w1] t1]; try reflexivity.
  destruct (k a w1) as [[[b| |] w2] t2]; try reflexivity.
  destruct (h b w2) as [[o w3] t3]. now rewrite app_assoc.
Qed.

Ltac mstep :=
  repeat (rewrite ?bind_bind;
          progress (rewrite ?bind_logf, ?bind_ret, ?bind_emit, ?after_after);
          cbv beta).

(** A computation that returns: what [bind] does with it. *)
Lemma bind_returns {A B} (m : M A) (k : A -> M B) (w w1 : World) a t1 :
  m w = (Ret a, w1, t1) -> bind m k w = after t1 (k a w1).
Proof.
  intros H. unfold bind, after. rewrite H.
  destruct (k a w1) as [[o w2] t2]. reflexivity.
Qed.

Lemma bind_aborts {A B} (m : M A) (k : A -> M B) (w : World) :
  aborted (outcome (m w)) ->
  aborted (outcome (bind m k w)) /\
  world (bind m k w) = world (m w) /\ trace (bind m k w) = trace (m w).
Proof.
  unfold bind. destruct (m w) as [[[a| |] w1] t1]; cbn; intuition.
Qed.

(** ** The transfer primitive [uploadToDrive] *)

Ltac run_upload :=
  unfold uploadToDrive, os_Lstat, os_Open, Files_Create, Files_Update, deref,
    next_fault, next_fails, drawn, logf, emit, bind, ret; cbn.

Ltac upload_cases sys filename s df w :=
  run_upload;
  destruct (lstat sys filename) as [[|]|]; cbn; try reflexivity;
  destruct (can_open sys filename); cbn; try reflexivity;
  destruct df, s; cbn; try reflexivity;
  destruct (hd false (faults w)); cbn; try reflexivity;
  try (destruct (find _ (store w)); cbn; try reflexivity).


Lemma uploadToDrive_never_searches sys s filename folderId driveFile name
  mimeType w :
  filter is_search
    (trace (uploadToDrive sys s filename folderId driveFile name mimeType w))
  = [].
Proof. upload_cases sys filename s driveFile w. Qed.

Lemma uploadToDrive_create_only sys s filename folderId name mimeType w :
  filter is_update
    (trace (uploadToDrive sys s filename folderId None name mimeType w)) = [].
Proof. upload_cases sys filename s (@None DriveFile) w. Qed.

Lemma uploadToDrive_client sys filename folderId driveFile name mimeType w :
  outcome (uploadToDrive sys Client filename folderId driveFile name mimeType w)
  <> Panic.
Proof.
  upload_cases sys filename Client driveFile w; discriminate.
Qed.

Lemma uploadToDrive_creates sys filename folderId name mimeType w :
  lstat sys filename = Some false ->
  can_open sys filename = true ->
  next_fails w = false ->
  let f := mkDriveFile "" name mimeType [folderId] in
  uploadToDrive sys Client filename folderId None name mimeType w =
  (Ret None,
   mkWorld (store w ++ [created sys f (Some filename) w]) (tl (faults w))
     (handles w ++ [filename]),
   [Lstat filename; Open filename; FilesCreate f (Some filename);
    Logf LDebug "uploaded/updated file." []]).
Proof.
  intros H1 H2 H3. unfold next_fails in H3. run_upload.
  rewrite H1; cbn. rewrite H2; cbn. rewrite H3; cbn. reflexivity.
Qed.

Lemma uploadToDrive_updates sys filename folderId driveFile name mimeType w o :
  lstat sys filename = Some false ->
  can_open sys filename = true ->
  next_fails w = false ->
  find (has_id (Id driveFile)) (store w) = Some o ->
  let f := mkDriveFile "" name mimeType [] in
  uploadToDrive sys Client filename folderId (Some driveFile) name mimeType w =
  (Ret None,
   mkWorld
     (map (fun x => if has_id (Id driveFile) x
                    then updated f folderId (content sys filename) x else x)
        (store w))
     (tl (faults w)) (handles w ++ [filename]),
   [Lstat filename; Open filename;
    FilesUpdate (Id driveFile) f folderId filename;
    Logf LDebug "uploaded/updated file." []]).
Proof.
  intros H1 H2 H3 H4. unfold next_fails in H3. run_upload.
  rewrite H1; cbn. rewrite H2; cbn. rewrite H3; cbn. rewrite H4; cbn.
  reflexivity.
Qed.

(** ** The loops over a response *)

Lemma fileParents_eq folderId ps w :
  fileParents folderId ps w =
  (Ret (existsb (fun p => String.eqb p folderId) ps), w,
   if existsb (fun p => String.eqb p folderId) ps
   then [Logf LDebug "file found in expected folder" []] else []).
Proof.
  induction ps as [|p ps IH]; cbn; [reflexivity|].
  destruct (String.eqb p folderId); cbn; [reflexivity|exact IH].
Qed.

Lemma currentFiles_eq folderId name files : forall currentFile w,
  currentFiles folderId name files currentFile w =
  (Ret (currentFileOf folderId name files currentFile), w,
   if existsb (fun i => named name i && in_folder folderId i) files
   then [Logf LDebug "file found in expected folder" []] else []).
Proof.
  induction files as [|i files IH]; intros cur w;
    cbn [currentFiles currentFileOf existsb]; [reflexivity|].
  change (String.eqb name (Name i)) with (named name i).
  destruct (named name i); cbn [andb orb]; [|apply IH].
  unfold bind. rewrite fileParents_eq. fold (in_folder folderId i).
  destruct (in_folder folderId i); cbn; [reflexivity|].
  rewrite IH. reflexivity.
Qed.

Lemma folderParents_eq folderId name i ps : forall st w,
  folderParents folderId name i ps st w =
  (Ret (fst st + length (filter (fun p => String.eqb p folderId) ps),
        if existsb (fun p => String.eqb p folderId) ps then Id i else snd st),
   w,
   repeat (foundLine name)
     (length (filter (fun p => String.eqb p folderId) ps))).
Proof.
  induction ps as [|p ps IH]; intros [n id] w;
    cbn [folderParents filter existsb length fst snd repeat].
  - unfold ret. now rewrite Nat.add_0_r.
  - destruct (String.eqb p folderId); cbn [orb length repeat]; [|apply IH].
    rewrite bind_logf, IH. unfold after; cbn.
    rewrite Nat.add_succ_r.
    now destruct (existsb _ ps).
Qed.

Lemma folderFiles_eq folderId name files : forall st w,
  folderFiles folderId name files st w =
  (Ret (foundIn folderId files st), w,
   repeat (foundLine name)
     (fst (foundIn folderId files st) - fst st)).
Proof.
  induction files as [|i files IH]; intros st w; cbn.
  - now rewrite Nat.sub_diag.
  - erewrite bind_returns by apply folderParents_eq.
    rewrite IH. unfold after, occurrences, in_folder; cbn.
    set (c := length (filter _ (Parents i))).
    set (st' := (fst st + c, _)).
    assert (Hge : fst st' <= fst (foundIn folderId files st')).
    { clear. generalize st'. induction files as [|j files IH]; intros s; cbn.
      - lia.
      - etransitivity; [|apply IH]. cbn. lia. }
    f_equal. rewrite <- repeat_app. f_equal. subst st'. cbn in *. lia.
Qed.

(** ** The decision [uploadFile] *)

Lemma uploadFile_plain sys s filename folderId name mimeType w :
  uploadFile sys s filename folderId name mimeType false w =
  after [targetLine name]
    (uploadToDrive sys s filename folderId None name mimeType w).
Proof. unfold uploadFile. now rewrite bind_logf. Qed.

Lemma uploadFile_nil sys filename folderId name mimeType w :
  uploadFile sys NilService filename folderId name mimeType true w =
  (Panic, w, [targetLine name]).
Proof. reflexivity. Qed.

Lemma uploadFile_search_fails sys filename folderId name mimeType w :
  next_fails w = true ->
  uploadFile sys Client filename folderId name mimeType true w =
  (Ret (Some (Errorf "unable to retrieve files: %w" [AErr (Cause "drive")])),
   drawn w, [targetLine name; FilesList ("name='" ++ name ++ "'")%string]).
Proof.
  intros H. unfold uploadFile, Files_List, deref, next_fault, logf, emit, bind,
    ret; cbn. now rewrite H.
Qed.

Lemma Files_List_client sys q w :
  Files_List sys Client q w =
  (Ret (if next_fails w then Err (Cause "drive") else Ok (listing sys q w)),
   drawn w, [FilesList q]).
Proof.
  unfold Files_List, deref, next_fault, emit, bind, ret, listing; cbn.
  now destruct (next_fails w).
Qed.

Lemma Files_Create_client sys f media w :
  Files_Create sys Client f media w =
  if next_fails w then (Ret (Err (Cause "drive")), drawn w, [FilesCreate f media])
  else (Ret (Ok (meta (created sys f media w))),
        mkWorld (store w ++ [created sys f media w]) (tl (faults w)) (handles w),
        [FilesCreate f media]).
Proof.
  unfold Files_Create, deref, next_fault, emit, bind, ret, created; cbn.
  now destruct (next_fails w).
Qed.

Lemma uploadFile_overwrite sys filename folderId name mimeType w :
  next_fails w = false ->
  uploadFile sys Client filename folderId name mimeType true w =
  after (searchTrace sys folderId name w)
    (uploadToDrive sys Client filename folderId
       (currentFileOf folderId name
          (listing sys ("name='" ++ name ++ "'")%string w) None)
       name mimeType (drawn w)).
Proof.
  intros H. unfold uploadFile. rewrite bind_logf. cbn [negb].
  erewrite bind_returns by apply Files_List_client.
  rewrite H, bind_logf.
  erewrite bind_returns by apply currentFiles_eq.
  unfold searchTrace.
  destruct (currentFileOf _ _ _ None) as [f|]; rewrite bind_logf;
    rewrite !after_after; f_equal; cbn; now rewrite <- ?app_assoc.
Qed.

Lemma searchTrace_writes sys folderId name w :
  filter is_write (searchTrace sys folderId name w) = [] /\
  filter is_open (searchTrace sys folderId name w) = [].
Proof.
  unfold searchTrace. cbn.
  destruct (existsb _ _); destruct (currentFileOf _ _ _ _); now cbn.
Qed.

(** ** Statements about [uploadToDrive] and [uploadFile] *)

(** C5.  With the overwrite flag false [uploadFile] is the create of
    [uploadToDrive] behind one printed line: on no path does it search the
    store or update an object, and when the file can be read and the store
    answers, it adds one new object to the target folder, whatever the store
    already holds under that name. *)
Theorem no_overwrite_creates sys s filename folderId name mimeType w :
  let r := uploadFile sys s filename folderId name mimeType false w in
  let f := mkDriveFile "" name mimeType [folderId] in
  r = after [targetLine name]
        (uploadToDrive sys s filename folderId None name mimeType w) /\
  filter is_search (trace r) = [] /\
  filter is_update (trace r) = [] /\
  (s = Client ->
   lstat sys filename = Some false ->
   can_open sys filename = true ->
   next_fails w = false ->
   outcome r = Ret None /\
   filter is_write (trace r) = [FilesCreate f (Some filename)] /\
   store (world r) = store w ++ [created sys f (Some filename) w]).
Proof.
  cbv zeta. rewrite uploadFile_plain. split; [reflexivity|].
  pose proof (uploadToDrive_never_searches sys s filename folderId None name
                mimeType w) as Hs.
  pose proof (uploadToDrive_create_only sys s filename folderId name
                mimeType w) as Hu.
  unfold after, trace in *; cbn [fst snd] in *.
  cbn [app filter is_search is_update targetLine].
  repeat split; try assumption.
  all: subst s; rewrite uploadToDrive_creates by assumption; reflexivity.
Qed.

Lemma no_overwrite_creates_witness :
  let r := uploadFile Demo.sys Client "report.txt" "root" "report.txt"
             "text/plain" false Demo.shared in
  outcome r = Ret None /\
  filter is_write (trace r)
  = [FilesCreate (mkDriveFile "" "report.txt" "text/plain" ["root"])
       (Some "report.txt")] /\
  map (fun o => (Id (meta o), Name (meta o), Parents (meta o)))
    (store (world r))
  = [("R", "report.txt", ["archive"; "root"]);
     ("new+", "report.txt", ["root"])].
Proof.
  destruct (no_overwrite_creates Demo.sys Client "report.txt" "root"
              "report.txt" "text/plain" Demo.shared) as (_ & _ & _ & H).
  destruct (H eq_refl eq_refl eq_refl eq_refl) as (H1 & H2 & H3).
  cbv zeta. split; [exact H1|]. split; [exact H2|].
  rewrite H3. reflexivity.
Defined.

(** C9 as amended.  When the path is a file that opens, [uploadToDrive]
    opens it right before the remote call and returns without having closed
    it, whether the call succeeds, fails or panics. *)
Theorem upload_leaves_handle_unclosed sys s filename folderId driveFile name
  mimeType w :
  lstat sys filename = Some false ->
  can_open sys filename = true ->
  let r := uploadToDrive sys s filename folderId driveFile name mimeType w in
  handles (world r) = handles w ++ [filename] /\
  firstn 2 (trace r) = [Lstat filename; Open filename] /\
  (s = Client ->
   exists call rest,
     trace r = [Lstat filename; Open filename; call] ++ rest /\
     is_write call = true).
Proof.
  intros H1 H2. cbv zeta. run_upload. rewrite H1; cbn. rewrite H2; cbn.
  split; [|split].
  - destruct driveFile, s; cbn; try reflexivity;
      destruct (hd false (faults w)); cbn; try reflexivity.
    destruct (find _ (store w)); reflexivity.
  - destruct driveFile, s; cbn; try reflexivity;
      destruct (hd false (faults w)); cbn; try reflexivity.
    destruct (find _ (store w)); reflexivity.
  - intros ->.
    destruct driveFile; cbn; destruct (hd false (faults w)); cbn;
      try (destruct (find _ (store w)); cbn);
      eexists; eexists; (split; [reflexivity|reflexivity]).
Qed.

Lemma upload_leaves_handle_unclosed_witness :
  let r := uploadToDrive Demo.sys Client "report.txt" "root" None "report.txt"
             "text/plain" (mkWorld [] [true] ["held"]) in
  outcome r
  = Ret (Some (Errorf "uploading file with filename: %s failed with error: %w"
                 [AStr "report.txt"; AErr (Cause "drive")])) /\
  handles (world r) = ["held"; "report.txt"].
Proof.
  cbv zeta. split; [reflexivity|].
  destruct (upload_leaves_handle_unclosed Demo.sys Client "report.txt" "root"
              None "report.txt" "text/plain" (mkWorld [] [true] ["held"])
              eq_refl eq_refl) as (H1 & _).
  exact H1.
Defined.

(** C9 as stated fails: [uploadToDrive] returns from a successful upload
    without having closed the file it opened. *)
Lemma handle_is_not_released :
  let r := uploadToDrive Demo.sys Client "report.txt" "root" None "report.txt"
             "text/plain" Demo.blank in
  outcome r = Ret None /\
  handles (world r) = ["report.txt"] /\
  ~ released Demo.blank r.
Proof.
  cbv zeta. split; [reflexivity|]. split; [reflexivity|].
  unfold released. cbn. discriminate.
Qed.

Lemma find_updated fileId (g : RemoteObject -> RemoteObject) objects :
  (forall x, Id (meta (g x)) = Id (meta x)) ->
  find (has_id fileId)
    (map (fun x => if has_id fileId x then g x else x) objects)
  = option_map g (find (has_id fileId) objects).
Proof.
  intros Hg. induction objects as [|x objects IH]; cbn; [reflexivity|].
  destruct (has_id fileId x) eqn:E.
  - unfold has_id in *. now rewrite Hg, E.
  - now rewrite E.
Qed.

Lemma in_add_parent p q ps :
  In q (add_parent p ps) <-> q = p \/ In q ps.
Proof.
  unfold add_parent. destruct (existsb (String.eqb p) ps) eqn:E.
  - split; [tauto|]. intros [->|H]; [|exact H].
    apply existsb_exists in E as (x & Hx & Hpx).
    apply String.eqb_eq in Hpx. now subst.
  - rewrite in_app_iff. cbn. intuition.
Qed.

(** C6.  An update of the located object [driveFile] sends its identifier,
    the new name and mime type, the file as media and the target folder as
    the one parent to add, and asks for no parent to be removed; in the
    store the object then carries the new name, mime type and content, has
    the target folder among its parents and has kept every parent it had;
    no object is added and the other objects are as before. *)
Theorem overwrite_keeps_parents sys filename folderId driveFile name mimeType
  w o :
  lstat sys filename = Some false ->
  can_open sys filename = true ->
  next_fails w = false ->
  find (has_id (Id driveFile)) (store w) = Some o ->
  let r := uploadToDrive sys Client filename folderId (Some driveFile) name
             mimeType w in
  let f := mkDriveFile "" name mimeType [] in
  let o' := updated f folderId (content sys filename) o in
  outcome r = Ret None /\
  filter is_write (trace r) = [FilesUpdate (Id driveFile) f folderId filename] /\
  find (has_id (Id driveFile)) (store (world r)) = Some o' /\
  Id (meta o') = Id (meta o) /\
  Name (meta o') = name /\
  MimeType (meta o') = mimeType /\
  payload o' = content sys filename /\
  In folderId (Parents (meta o')) /\
  (forall p, In p (Parents (meta o)) -> In p (Parents (meta o'))) /\
  (forall p, In p (Parents (meta o')) -> p = folderId \/ In p (Parents (meta o))) /\
  length (store (world r)) = length (store w) /\
  (forall x, In x (store w) -> has_id (Id driveFile) x = false ->
             In x (store (world r))).
Proof.
  intros H1 H2 H3 H4. cbv zeta.
  rewrite (uploadToDrive_updates sys filename folderId driveFile name mimeType
             w o H1 H2 H3 H4).
  unfold outcome, world, trace; cbn [fst snd store].
  split; [reflexivity|]. split; [reflexivity|].
  split; [rewrite find_updated by reflexivity; now rewrite H4|].
  do 4 (split; [reflexivity|]).
  split; [apply in_add_parent; now left|].
  split; [intros p Hp; apply in_add_parent; now right|].
  split; [intros p Hp; now apply in_add_parent in Hp|].
  split; [apply length_map|].
  intros x Hx Hid. apply in_map_iff. exists x. now rewrite Hid.
Qed.

Lemma overwrite_keeps_parents_witness :
  let r := uploadToDrive Demo.sys Client "report.txt" "root"
             (Some (mkDriveFile "X" "report.txt" "text/plain" ["other"]))
             "report.txt" "text/csv" Demo.elsewhere in
  outcome r = Ret None /\
  store (world r)
  = [mkRemoteObject (mkDriveFile "X" "report.txt" "text/csv" ["other"; "root"])
       "bytes of report.txt"].
Proof.
  pose proof (overwrite_keeps_parents Demo.sys "report.txt" "root"
                (mkDriveFile "X" "report.txt" "text/plain" ["other"])
                "report.txt" "text/csv" Demo.elsewhere
                (Demo.object "X" "report.txt" "text/plain" ["other"])
                eq_refl eq_refl eq_refl eq_refl) as H.
  cbv zeta in *. destruct H as (H & _). split; [exact H|reflexivity].
Defined.

(** ** The overwrite decision *)

Lemma last_of_cons {A} (x : A) (l : list A) :
  last_of (x :: l) = match last_of l with Some y => Some y | None => Some x end.
Proof.
  unfold last_of. revert x. induction l as [|y l IH]; intros x; [reflexivity|].
  change (last (map Some (x :: y :: l)) None)
    with (last (map Some (y :: l)) None).
  rewrite IH. now destruct (last (map Some l) None).
Qed.

Lemma last_of_nil {A} (l : list A) : last_of l = None <-> l = [].
Proof.
  destruct l as [|x l]; [now split|].
  rewrite last_of_cons. destruct (last_of l); split; discriminate.
Qed.

Lemma last_of_In {A} (l : list A) x : last_of l = Some x -> In x l.
Proof.
  induction l as [|y l IH]; [discriminate|].
  rewrite last_of_cons. destruct (last_of l) as [z|].
  - intros [= ->]. right. now apply IH.
  - intros [= ->]. now left.
Qed.

(** Without an object in the target folder the loop of [uploadFile] ends
    with the last object that carries the name. *)
Lemma currentFileOf_elsewhere folderId name files :
  (forall i, In i files -> in_folder folderId i = false) ->
  forall currentFile,
    currentFileOf folderId name files currentFile
    = match last_of (filter (named name) files) with
      | Some i => Some i
      | None => currentFile
      end.
Proof.
  induction files as [|i files IH]; intros H cur; [reflexivity|].
  cbn [currentFileOf filter].
  destruct (named name i).
  - rewrite (H i) by now left.
    rewrite IH by (intros j Hj; apply H; now right).
    rewrite last_of_cons. now destruct (last_of _).
  - apply IH. intros j Hj. apply H. now right.
Qed.

Lemma uploadToDrive_update_only sys s filename folderId driveFile name
  mimeType w :
  filter is_create
    (trace (uploadToDrive sys s filename folderId (Some driveFile) name
              mimeType w)) = [].
Proof. upload_cases sys filename s (Some driveFile) w. Qed.

Lemma searchTrace_calls sys folderId name w :
  filter is_create (searchTrace sys folderId name w) = [] /\
  filter is_update (searchTrace sys folderId name w) = [].
Proof.
  unfold searchTrace. cbn.
  destruct (existsb _ _); destruct (currentFileOf _ _ _ _); now cbn.
Qed.

(** C1 as amended.  With the overwrite flag set and a search that succeeds,
    if no object of the response has the target folder among its parents,
    [uploadFile] hands [uploadToDrive] the last object of the response that
    carries the target name: when there is none the upload is a create in
    the target folder and nothing is updated; when there is one, that object
    is updated, wherever it lives, and nothing is created. *)
Theorem overwrite_without_folder_match sys filename folderId name mimeType w :
  next_fails w = false ->
  (forall i, In i (listing sys (nameQuery name) w) ->
             in_folder folderId i = false) ->
  let r := uploadFile sys Client filename folderId name mimeType true w in
  let namesakes := filter (named name) (listing sys (nameQuery name) w) in
  r = after (searchTrace sys folderId name w)
        (uploadToDrive sys Client filename folderId (last_of namesakes) name
           mimeType (drawn w)) /\
  (namesakes = [] ->
   filter is_update (trace r) = [] /\
   (lstat sys filename = Some false ->
    can_open sys filename = true ->
    next_fails (drawn w) = false ->
    let f := mkDriveFile "" name mimeType [folderId] in
    outcome r = Ret None /\
    filter is_write (trace r) = [FilesCreate f (Some filename)] /\
    store (world r) = store w ++ [created sys f (Some filename) w])) /\
  (forall i, last_of namesakes = Some i ->
   filter is_create (trace r) = [] /\
   (forall o,
       lstat sys filename = Some false ->
       can_open sys filename = true ->
       next_fails (drawn w) = false ->
       find (has_id (Id i)) (store w) = Some o ->
       outcome r = Ret None /\
       filter is_write (trace r)
       = [FilesUpdate (Id i) (mkDriveFile "" name mimeType []) folderId
            filename])).
Proof.
  intros Hok Hnone. cbv zeta.
  assert (E : uploadFile sys Client filename folderId name mimeType true w
              = after (searchTrace sys folderId name w)
                  (uploadToDrive sys Client filename folderId
                     (last_of (filter (named name)
                                 (listing sys (nameQuery name) w)))
                     name mimeType (drawn w))).
  { rewrite uploadFile_overwrite by assumption. f_equal. f_equal.
    fold (nameQuery name).
    rewrite currentFileOf_elsewhere by assumption.
    now destruct (last_of _). }
  rewrite E. split; [reflexivity|].
  destruct (searchTrace_calls sys folderId name w) as [Hc Hu].
  destruct (searchTrace_writes sys folderId name w) as [Hw _].
  split.
  - intros ->. cbn [last_of map last]. split.
    + unfold after, trace at 1; cbn [fst snd]. rewrite filter_app, Hu.
      apply uploadToDrive_create_only.
    + intros H1 H2 H3.
      rewrite uploadToDrive_creates by assumption.
      unfold after, outcome, world, trace; cbn [fst snd store drawn].
      rewrite filter_app, Hw. now cbn.
  - intros i Hi. rewrite Hi. split.
    + unfold after, trace at 1; cbn [fst snd]. rewrite filter_app, Hc.
      apply uploadToDrive_update_only.
    + intros o H1 H2 H3 H4.
      rewrite (uploadToDrive_updates sys filename folderId i name mimeType
                 (drawn w) o H1 H2 H3 H4).
      unfold after, outcome, world, trace; cbn [fst snd].
      rewrite filter_app, Hw. now cbn.
Qed.

Lemma overwrite_without_folder_match_witness :
  let r := uploadFile Demo.sys Client "report.txt" "root" "report.txt"
             "text/plain" true Demo.elsewhere in
  outcome r = Ret None /\
  filter is_write (trace r)
  = [FilesUpdate "X" (mkDriveFile "" "report.txt" "text/plain" []) "root"
       "report.txt"].
Proof.
  cbv zeta.
  assert (Hnone : forall i,
             In i (listing Demo.sys (nameQuery "report.txt") Demo.elsewhere) ->
             in_folder "root" i = false)
    by (intros i [<-|[]]; reflexivity).
  pose proof (overwrite_without_folder_match Demo.sys "report.txt" "root"
                "report.txt" "text/plain" Demo.elsewhere eq_refl Hnone) as H.
  cbv zeta in H. destruct H as (_ & _ & H).
  destruct (H (mkDriveFile "X" "report.txt" "text/plain" ["other"]) eq_refl)
    as (_ & H').
  apply (H' (Demo.object "X" "report.txt" "text/plain" ["other"]));
    reflexivity.
Defined.

(** C1 as stated fails: the only object called [report.txt] lives in the
    folder [other]; a search from the target folder [root] finds it, no
    object of the response has [root] among its parents, and yet the
    program updates that object instead of creating one. *)
Lemma overwrite_updates_elsewhere :
  let r := uploadFile Demo.sys Client "report.txt" "root" "report.txt"
             "text/plain" true Demo.elsewhere in
  (forall i, In i (listing Demo.sys (nameQuery "report.txt") Demo.elsewhere) ->
             in_folder "root" i = false) /\
  outcome r = Ret None /\
  filter is_write (trace r)
  = [FilesUpdate "X" (mkDriveFile "" "report.txt" "text/plain" []) "root"
       "report.txt"] /\
  map meta (store (world r))
  = [mkDriveFile "X" "report.txt" "text/plain" ["other"; "root"]] /\
  ~ creates_in "root" r.
Proof.
  cbv zeta. split; [intros i [<-|[]]; reflexivity|].
  split; [reflexivity|]. split; [reflexivity|]. split; [reflexivity|].
  intros (f & media & H & _). discriminate H.
Qed.

(** ** The directory resolver [createDriveDirectory] *)

Lemma occurrences_in_folder folderId i :
  occurrences folderId i = 0 <-> in_folder folderId i = false.
Proof.
  unfold occurrences, in_folder.
  induction (Parents i) as [|p ps IH]; cbn; [tauto|].
  destruct (String.eqb p folderId); cbn; [split; discriminate|exact IH].
Qed.

Lemma foundIn_fst folderId files : forall st,
  fst (foundIn folderId files st) = 0 <->
  fst st = 0 /\ filter (in_folder folderId) files = [].
Proof.
  induction files as [|i files IH]; intros st; cbn [foundIn filter].
  - tauto.
  - rewrite IH. cbn [fst].
    pose proof (occurrences_in_folder folderId i) as Ho.
    destruct (in_folder folderId i).
    + split; [|intros [_ H]; discriminate H].
      intros [H _]. assert (occurrences folderId i = 0) by lia.
      apply Ho in H0. discriminate.
    + assert (occurrences folderId i = 0) as -> by now apply Ho.
      now rewrite Nat.add_0_r.
Qed.

Lemma foundIn_snd folderId files : forall st,
  snd (foundIn folderId files st)
  = match last_of (filter (in_folder folderId) files) with
    | Some m => Id m
    | None => snd st
    end.
Proof.
  induction files as [|i files IH]; intros st; cbn [foundIn filter];
    [reflexivity|].
  rewrite IH. cbn [snd].
  destruct (in_folder folderId i); [|reflexivity].
  rewrite last_of_cons. now destruct (last_of _).
Qed.

Lemma filter_foundLine (p : Event -> bool) name n :
  p (foundLine name) = false -> filter p (repeat (foundLine name) n) = [].
Proof. intros H. induction n as [|n IH]; cbn; [reflexivity|]. now rewrite H. Qed.

Lemma resolveTrace_calls sys folderId name w :
  filter is_write (resolveTrace sys folderId name w) = [] /\
  filter is_search (resolveTrace sys folderId name w)
  = [FilesList (folderQuery name)].
Proof.
  unfold resolveTrace. rewrite !filter_app, !filter_foundLine by reflexivity.
  now cbn.
Qed.

Lemma createDriveDirectory_search sys folderId name w :
  next_fails w = false ->
  createDriveDirectory sys Client folderId name w =
  after (resolveTrace sys folderId name w)
    (let st := foundIn folderId (listing sys (folderQuery name) w) (0, "") in
     if Nat.eqb (fst st) 0 then
       after [Logf LInfo "Creating folder: %s" [AStr name]]
         (bind (Files_Create sys Client
                  (mkDriveFile "" name folderMimeType [folderId]) None)
            (fun d =>
               match d with
               | Err err =>
                   ret ("", Some (Errorf "creating folder failed with error: %w"
                                    [AErr err]))
               | Ok d => ret (Id d, None)
               end) (drawn w))
     else (Ret (snd st, None), drawn w, [])).
Proof.
  intros H. unfold createDriveDirectory. rewrite bind_logf.
  erewrite bind_returns by apply Files_List_client.
  rewrite H.
  erewrite bind_returns by apply folderFiles_eq.
  fold (folderQuery name). cbv zeta.
  destruct (foundIn folderId (listing sys (folderQuery name) w) (0, ""))
    as [n id] eqn:E.
  cbn [fst snd]. rewrite Nat.sub_0_r, !after_after.
  unfold resolveTrace. rewrite E. cbn [fst app].
  destruct (Nat.eqb n 0); [rewrite bind_logf|]; reflexivity.
Qed.

(** C2 as amended.  When the search succeeds, the resolver looks at the
    folders of the response that have [folderId] among their parents: if
    there are any it returns the identifier of the last of them in the
    response, having searched once and written nothing; if there is none it
    creates one folder with the name and the one parent [folderId] and
    returns the identifier the store gave it. *)
Theorem resolver_takes_last_match sys folderId name w :
  next_fails w = false ->
  let r := createDriveDirectory sys Client folderId name w in
  let matches :=
    filter (in_folder folderId) (listing sys (folderQuery name) w) in
  let f := mkDriveFile "" name folderMimeType [folderId] in
  filter is_search (trace r) = [FilesList (folderQuery name)] /\
  (forall m, last_of matches = Some m ->
             outcome r = Ret (Id m, None) /\
             filter is_write (trace r) = [] /\
             store (world r) = store w) /\
  (matches = [] ->
   next_fails (drawn w) = false ->
   outcome r = Ret (fresh_id sys (store w), None) /\
   filter is_write (trace r) = [FilesCreate f None] /\
   store (world r) = store w ++ [created sys f None w]).
Proof.
  intros Hok. cbv zeta.
  rewrite createDriveDirectory_search by assumption.
  destruct (resolveTrace_calls sys folderId name w) as [Hw Hs].
  pose proof (foundIn_fst folderId (listing sys (folderQuery name) w) (0, ""))
    as Hfst.
  pose proof (foundIn_snd folderId (listing sys (folderQuery name) w) (0, ""))
    as Hsnd.
  cbv zeta. destruct (Nat.eqb_spec
                        (fst (foundIn folderId
                                (listing sys (folderQuery name) w) (0, ""))) 0)
    as [E|E].
  - apply Hfst in E as [_ E]. rewrite E.
    destruct (next_fails (drawn w)) eqn:Ef;
      (erewrite bind_returns by (rewrite Files_Create_client, Ef; reflexivity));
      unfold after, outcome, world, trace, ret; cbn [fst snd];
      rewrite !filter_app, Hs, Hw; cbn [filter app is_search is_write is_create
                                          is_update orb store].
    + split; [reflexivity|]. split; [intros m Hm; discriminate Hm|].
      intros _ Hok2. discriminate Hok2.
    + split; [reflexivity|]. split; [intros m Hm; discriminate Hm|].
      intros _ _. repeat split.
  - assert (Hne : filter (in_folder folderId)
                    (listing sys (folderQuery name) w) <> []).
    { intros Hnil. apply E, Hfst. now split. }
    unfold after, outcome, world, trace; cbn [fst snd].
    rewrite !filter_app, Hw, Hs. cbn [filter app].
    split; [reflexivity|]. split.
    + intros m Hm. rewrite Hsnd, Hm. now cbn.
    + intros Hnil. contradiction.
Qed.

Lemma resolver_takes_last_match_witness :
  outcome (createDriveDirectory Demo.sys Client "root" "a" Demo.twins)
  = Ret ("A2", None) /\
  outcome (createDriveDirectory Demo.sys Client "root" "b" Demo.twins)
  = Ret ("new+++", None).
Proof.
  split.
  - pose proof (resolver_takes_last_match Demo.sys "root" "a" Demo.twins
                  eq_refl) as H.
    cbv zeta in H. destruct H as (_ & H & _).
    apply (H (mkDriveFile "A2" "a" folderMimeType ["root"]) eq_refl).
  - pose proof (resolver_takes_last_match Demo.sys "root" "b" Demo.twins
                  eq_refl) as H.
    cbv zeta in H. destruct H as (_ & _ & H).
    apply (H eq_refl eq_refl).
Defined.

(** C2 as stated fails: of two folders [a] under [root] the resolver returns
    the second of the response, not the first. *)
Lemma resolver_skips_first_match :
  let found := listing Demo.sys (folderQuery "a") Demo.twins in
  map Id (filter (in_folder "root") found) = ["A1"; "A2"] /\
  outcome (createDriveDirectory Demo.sys Client "root" "a" Demo.twins)
  = Ret ("A2", None) /\
  outcome (createDriveDirectory Demo.sys Client "root" "a" Demo.twins)
  <> Ret ("A1", None).
Proof.
  cbv zeta. split; [reflexivity|]. split; [reflexivity|]. discriminate.
Qed.

(** ** The loop over the files *)

Lemma processFile_eq sys v folderId file w :
  processFile sys v folderId file w =
  after [Logf LInfo "Processing file %s" [AStr file]]
    (bind (folderChoice sys v file) (nameAndUpload sys v file) w).
Proof. unfold processFile. now rewrite bind_logf. Qed.

Lemma mirrorDirectories_resolved sys s segments :
  forall parent w final w' t,
    mirrorDirectories sys s parent segments w = (Ret final, w', t) <->
    resolved sys s parent segments w final w' t.
Proof.
  induction segments as [|segment segments IH]; intros parent w final w' t.
  - cbn. unfold ret. split.
    + intros [= -> -> <-]. constructor.
    + intros H. inversion H; subst. reflexivity.
  - cbn [mirrorDirectories]. split.
    + unfold bind.
      destruct (createDriveDirectory sys s parent segment w)
        as [[[[folder [err|]]| |] w1] t1] eqn:E; try discriminate.
      cbn [fst snd].
      destruct (mirrorDirectories sys s folder segments w1)
        as [[o w2] t2] eqn:E2.
      intros [= -> -> <-].
      econstructor; [exact E|]. now apply IH.
    + intros H. inversion H as [|? ? ? ? folder w1 t1 ? ? t2 Hc Hr]; subst.
      apply IH in Hr. unfold bind. rewrite Hc. cbn [fst snd]. now rewrite Hr.
Qed.

Lemma uploadFile_starts sys s filename folderId name mimeType overwrite w :
  exists t,
    trace (uploadFile sys s filename folderId name mimeType overwrite w)
    = targetLine name :: t.
Proof.
  unfold uploadFile. rewrite bind_logf. unfold after, trace at 1; cbn.
  eexists. reflexivity.
Qed.

(** C3.  The name chosen for a matched file: the matched path itself when
    the complete-source-filename flag is set, however many files matched and
    whatever name is configured; otherwise the base name of the path when
    more than one file matched or no name is configured; otherwise the
    configured name.  Without mirroring, that name behind the prefix is the
    one [uploadFile] is entered with. *)
Theorem target_name_precedence v file :
  (useCompleteSourceFilenameAsNameFlag v = true -> targetNameOf v file = file) /\
  (useCompleteSourceFilenameAsNameFlag v = false ->
   1 < length (files v) \/ name v = "" ->
   targetNameOf v file = GoLib.Base file) /\
  (useCompleteSourceFilenameAsNameFlag v = false ->
   length (files v) <= 1 ->
   name v <> "" ->
   targetNameOf v file = name v) /\
  (forall sys folderId w,
      mirrorDirectoryStructureFlag v = false ->
      targetNameOf v file <> "" ->
      firstn 2 (trace (processFile sys v folderId file w))
      = [Logf LInfo "Processing file %s" [AStr file];
         targetLine (withPrefix v (targetNameOf v file))]).
Proof.
  unfold targetNameOf, useSourceFilename.
  split; [intros ->; reflexivity|].
  split; [|split].
  - intros -> [H| ->].
    + apply Nat.ltb_lt in H. now rewrite H.
    + cbn. now rewrite orb_true_r.
  - intros -> Hle Hne.
    assert (Nat.ltb 1 (length (files v)) = false) as ->
        by (apply Nat.ltb_ge; lia).
    now destruct (String.eqb_spec (name v) "").
  - intros sys folderId w Hm Hne.
    fold (useSourceFilename v). fold (targetNameOf v file) in *.
    rewrite processFile_eq. unfold folderChoice. rewrite Hm, bind_ret.
    unfold nameAndUpload.
    destruct (String.eqb_spec (targetNameOf v file) ""); [contradiction|].
    rewrite bind_ret.
    destruct (uploadFile_starts sys (svc v) file (originalFolderId v)
                (withPrefix v (targetNameOf v file)) (mimeType v)
                (overwriteFlag v) w) as [t Ht].
    unfold bind, after, trace in *.
    destruct (uploadFile _ _ _ _ _ _ _ w) as [[[[e|]| |] w1] t1];
      cbn [fst snd] in *; subst t1; reflexivity.
Qed.

Lemma target_name_precedence_witness :
  let one := Demo.vars ["a/report.txt"] false "summary" false false "" in
  let two :=
    Demo.vars ["a/report.txt"; "b/notes.txt"] false "summary" false false "" in
  let full :=
    Demo.vars ["a/report.txt"; "b/notes.txt"] false "summary" true false "" in
  targetNameOf one "a/report.txt" = "summary" /\
  targetNameOf two "a/report.txt" = "report.txt" /\
  targetNameOf full "a/report.txt" = "a/report.txt" /\
  firstn 2 (trace (processFile Demo.sys two "root" "a/report.txt" Demo.blank))
  = [Logf LInfo "Processing file %s" [AStr "a/report.txt"];
     targetLine "report.txt"].
Proof.
  cbv zeta. split; [|split; [|split]].
  - apply (target_name_precedence
             (Demo.vars ["a/report.txt"] false "summary" false false "")
             "a/report.txt"); [reflexivity|cbn; lia|discriminate].
  - apply (target_name_precedence
             (Demo.vars ["a/report.txt"; "b/notes.txt"] false "summary" false
                false "") "a/report.txt"); [reflexivity|left; cbn; lia].
  - apply (target_name_precedence
             (Demo.vars ["a/report.txt"; "b/notes.txt"] false "summary" true
                false "") "a/report.txt"); reflexivity.
  - apply (target_name_precedence
             (Demo.vars ["a/report.txt"; "b/notes.txt"] false "summary" false
                false "") "a/report.txt"); [reflexivity|discriminate].
Defined.

Lemma createDriveDirectory_nil sys folderId name w :
  createDriveDirectory sys NilService folderId name w =
  (Panic, w, [Logf LInfo "Checking for existing folder %s" [AStr name]]).
Proof. reflexivity. Qed.

Lemma createDriveDirectory_search_fails sys folderId name w :
  next_fails w = true ->
  createDriveDirectory sys Client folderId name w =
  (Ret ("", Some (Errorf "unable to retrieve files: %w" [AErr (Cause "drive")])),
   drawn w,
   [Logf LInfo "Checking for existing folder %s" [AStr name];
    FilesList (folderQuery name)]).
Proof.
  intros H. unfold createDriveDirectory. rewrite bind_logf.
  erewrite bind_returns by apply Files_List_client.
  rewrite H. reflexivity.
Qed.

(** What every call of the resolver has in common: it never enters
    [uploadFile], it cannot panic on a client, and when it returns a folder
    it has searched exactly once. *)
Lemma createDriveDirectory_cases sys s folderId name w :
  let r := createDriveDirectory sys s folderId name w in
  filter is_upload (trace r) = [] /\
  (s = Client -> outcome r <> Panic) /\
  (forall folder, outcome r = Ret (folder, None) ->
                  filter is_search (trace r) = [FilesList (folderQuery name)]).
Proof.
  cbv zeta. destruct s.
  - rewrite createDriveDirectory_nil. cbn.
    repeat split; try discriminate; intros ? [=].
  - destruct (next_fails w) eqn:E.
    + rewrite createDriveDirectory_search_fails by assumption. cbn.
      repeat split; try discriminate; intros ? [=].
    + rewrite createDriveDirectory_search by assumption.
      destruct (resolveTrace_calls sys folderId name w) as [_ Hs].
      assert (Hu : filter is_upload (resolveTrace sys folderId name w) = []).
      { unfold resolveTrace.
        rewrite filter_app, filter_foundLine by reflexivity. reflexivity. }
      cbv zeta. destruct (Nat.eqb _ 0).
      * destruct (next_fails (drawn w)) eqn:Ef;
          (erewrite bind_returns
            by (rewrite Files_Create_client, Ef; reflexivity));
          unfold after, outcome, world, trace, ret; cbn [fst snd];
          rewrite !filter_app, Hs, Hu; cbn;
          repeat split; try discriminate; try (intros ? [=]).
      * unfold after, outcome, world, trace; cbn [fst snd].
        rewrite !filter_app, Hs, Hu; cbn. repeat split; discriminate.
Qed.

Lemma resolved_searches sys s parent segments w final w' t :
  resolved sys s parent segments w final w' t ->
  filter is_search t = map (fun segment => FilesList (folderQuery segment))
                         segments.
Proof.
  induction 1 as [|parent segment segments w folder w1 t1 final w2 t2 Hc Hr IH];
    [reflexivity|].
  rewrite filter_app, IH. cbn [map].
  destruct (createDriveDirectory_cases sys s parent segment w) as (_ & _ & H).
  rewrite Hc in H. unfold outcome, trace in H; cbn [fst snd] in H.
  rewrite (H folder eq_refl). reflexivity.
Qed.

(** C4.  One turn of the loop does not depend on the folder the turn before
    left in [folderId]: it starts from the configured root.  Without
    mirroring the file is uploaded to the root.  With mirroring, when the
    segments of the directory of the file resolve in a chain (one call of
    the resolver for each segment, in order, each under the folder the
    previous call returned, the first under the root), the file is uploaded
    to the folder of the last call; the resolution loop returns exactly when
    there is such a chain, and the chain searches once for each segment.
    The loop over the files is one such turn for each file, in order. *)
Theorem folder_is_reset_and_chained sys v folderId file w :
  processFile sys v folderId file w
  = processFile sys v (originalFolderId v) file w /\
  (forall rest,
      processFiles sys v folderId (file :: rest) w
      = bind (processFile sys v (originalFolderId v) file)
          (fun left => processFiles sys v left rest) w) /\
  (mirrorDirectoryStructureFlag v = false ->
   processFile sys v folderId file w
   = after [Logf LInfo "Processing file %s" [AStr file]]
       (nameAndUpload sys v file (originalFolderId v) w)) /\
  (mirrorDirectoryStructureFlag v = true ->
   forall final w1 t,
     resolved sys (svc v) (originalFolderId v) (directoryStructureOf file) w
       final w1 t ->
     filter is_search t
     = map (fun segment => FilesList (folderQuery segment))
         (directoryStructureOf file) /\
     processFile sys v folderId file w
     = after ([Logf LInfo "Processing file %s" [AStr file];
               Logf LInfo "Mirroring directory structure: %v"
                 [AList (directoryStructureOf file)]] ++ t)
         (nameAndUpload sys v file final w1)) /\
  (forall parent segments w0 final w1 t,
      mirrorDirectories sys (svc v) parent segments w0 = (Ret final, w1, t) <->
      resolved sys (svc v) parent segments w0 final w1 t).
Proof.
  split; [reflexivity|]. split; [reflexivity|]. split; [|split].
  - intros Hm. rewrite processFile_eq. unfold folderChoice.
    rewrite Hm. now rewrite bind_ret.
  - intros Hm final w1 t Hr. split; [eapply resolved_searches; eassumption|].
    apply mirrorDirectories_resolved in Hr.
    rewrite processFile_eq. unfold folderChoice.
    rewrite Hm, bind_bind, bind_logf.
    erewrite bind_returns by exact Hr.
    rewrite !after_after. reflexivity.
  - intros. apply mirrorDirectories_resolved.
Qed.

Lemma folder_is_reset_and_chained_witness :
  let v := Demo.vars ["a/b/file.txt"] false "" false true "" in
  exists w1 t,
    resolved Demo.sys Client "root" ["a"; "b"] Demo.twins "new+++" w1 t /\
    filter is_search t = [FilesList (folderQuery "a"); FilesList (folderQuery "b")] /\
    processFile Demo.sys v "left over" "a/b/file.txt" Demo.twins
    = after ([Logf LInfo "Processing file %s" [AStr "a/b/file.txt"];
              Logf LInfo "Mirroring directory structure: %v" [AList ["a"; "b"]]]
             ++ t)
        (nameAndUpload Demo.sys v "a/b/file.txt" "new+++" w1).
Proof.
  cbv zeta.
  destruct (folder_is_reset_and_chained Demo.sys
              (Demo.vars ["a/b/file.txt"] false "" false true "")
              "left over" "a/b/file.txt" Demo.twins) as (_ & _ & _ & H & Hiff).
  assert (Hr : exists w1 t,
             resolved Demo.sys Client "root" ["a"; "b"] Demo.twins "new+++" w1 t).
  { eexists. eexists. apply Hiff. vm_compute. reflexivity. }
  destruct Hr as (w1 & t & Hr).
  exists w1, t. split; [exact Hr|].
  apply (H eq_refl "new+++" w1 t Hr).
Defined.

(** ** A directory among the files *)




Lemma Lstat_on_directory disk path :
  Lstat_on disk path = Some true <-> disk path = Some IsDirectory.
Proof.
  unfold Lstat_on. destruct (disk path) as [[| |target]|];
    split; congruence.
Qed.


(** ** An empty target name *)

Lemma withPrefix_empty v targetName :
  withPrefix v targetName = "" -> targetName = "".
Proof.
  unfold withPrefix. destruct (filenamePrefix v) as [|c prefix]; cbn.
  - trivial.
  - discriminate.
Qed.

Lemma mirrorDirectories_cases sys s segments : forall parent w,
  let r := mirrorDirectories sys s parent segments w in
  filter is_upload (trace r) = [] /\ (s = Client -> outcome r <> Panic).
Proof.
  induction segments as [|segment segments IH]; intros parent w; cbv zeta.
  - cbn. split; [reflexivity|discriminate].
  - cbn [mirrorDirectories].
    destruct (createDriveDirectory_cases sys s parent segment w)
      as (Hu & Hp & _).
    unfold bind.
    destruct (createDriveDirectory sys s parent segment w)
      as [[[[folder [err|]]| |] w1] t1]; unfold outcome, trace in *;
      cbn [fst snd] in *.
    + unfold Fatalf. cbn [fst snd]. rewrite filter_app, Hu.
      split; [reflexivity|discriminate].
    + destruct (IH folder w1) as [Hu2 Hp2].
      destruct (mirrorDirectories sys s folder segments w1) as [[o w2] t2].
      unfold outcome, trace in *; cbn [fst snd] in *.
      rewrite filter_app, Hu, Hu2. split; [reflexivity|exact Hp2].
    + split; [exact Hu|discriminate].
    + split; [exact Hu|]. intros Hs. exfalso. now apply (Hp Hs).
Qed.

Lemma uploadFile_client sys filename folderId name mimeType overwrite w :
  outcome (uploadFile sys Client filename folderId name mimeType overwrite w)
  <> Panic.
Proof.
  destruct overwrite.
  - destruct (next_fails w) eqn:E.
    + rewrite uploadFile_search_fails by assumption. discriminate.
    + rewrite uploadFile_overwrite by assumption. apply uploadToDrive_client.
  - rewrite uploadFile_plain. apply uploadToDrive_client.
Qed.

Lemma folderChoice_cases sys v file w :
  let r := folderChoice sys v file w in
  filter is_upload (trace r) = [] /\ (svc v = Client -> outcome r <> Panic).
Proof.
  cbv zeta. unfold folderChoice. destruct (mirrorDirectoryStructureFlag v).
  - rewrite bind_logf.
    destruct (mirrorDirectories_cases sys (svc v) (directoryStructureOf file)
                (originalFolderId v) w) as [Hu Hp].
    unfold after, outcome, trace in *; cbn [fst snd] in *.
    cbn [app filter is_upload]. split; assumption.
  - cbn. split; [reflexivity|discriminate].
Qed.

Lemma processFile_client sys v folderId file w :
  svc v = Client -> outcome (processFile sys v folderId file w) <> Panic.
Proof.
  intros Hc. rewrite processFile_eq.
  destruct (folderChoice_cases sys v file w) as [_ Hp]. cbv zeta in Hp.
  specialize (Hp Hc). unfold bind, after, outcome in *.
  destruct (folderChoice sys v file w)
    as [[[final| |] w1] t1]; cbn [fst snd] in *; try discriminate;
    [|contradiction].
  unfold nameAndUpload.
  destruct (String.eqb (targetNameOf v file) ""); [discriminate|].
  rewrite bind_ret.
  pose proof (uploadFile_client sys file final
                (withPrefix v (targetNameOf v file)) (mimeType v)
                (overwriteFlag v) w1) as Hu.
  rewrite Hc. unfold bind, outcome in *.
  destruct (uploadFile _ _ _ _ _ _ _ w1) as [[[[e|]| |] w2] t2];
    cbn [fst snd] in *; try discriminate. contradiction.
Qed.

Lemma processFile_nameless sys v folderId file w :
  targetNameOf v file = "" ->
  let r := processFile sys v folderId file w in
  aborted (outcome r) /\
  filter is_upload (trace r) = [] /\
  (svc v = Client -> outcome r = Exit).
Proof.
  intros Hn. cbv zeta. rewrite processFile_eq.
  destruct (folderChoice_cases sys v file w) as [Hu Hp]. cbv zeta in Hu, Hp.
  unfold bind, after, outcome, trace in *.
  destruct (folderChoice sys v file w)
    as [[[final| |] w1] t1]; cbn [fst snd] in *.
  - unfold nameAndUpload. rewrite Hn. cbn. rewrite filter_app, Hu.
    now repeat split.
  - now repeat split.
  - repeat split; [exact Hu|]. intros Hc. now apply Hp in Hc.
Qed.

(** C7.  When the name of a file, with the prefix before it, is empty, the
    run ends at that file without returning: [uploadFile] is entered for
    none but the files before it, exactly as in a run on those files alone;
    and on a client the end is the fatal exit. *)
Theorem empty_name_aborts sys v before file rest :
  withPrefix v (targetNameOf v file) = "" ->
  forall folderId w,
    let r := processFiles sys v folderId (before ++ file :: rest) w in
    aborted (outcome r) /\
    filter is_upload (trace r)
    = filter is_upload (trace (processFiles sys v folderId before w)) /\
    (svc v = Client -> outcome r = Exit).
Proof.
  intros Hn. apply withPrefix_empty in Hn.
  induction before as [|f before IH]; intros folderId w; cbv zeta.
  - cbn [app processFiles].
    destruct (processFile_nameless sys v folderId file w Hn) as (Ha & Hu & Hc).
    destruct (bind_aborts (processFile sys v folderId file)
                (fun c => processFiles sys v c rest) w Ha) as (Ha' & _ & Ht).
    rewrite Ht, Hu. split; [exact Ha'|]. split; [reflexivity|].
    intros Hs. specialize (Hc Hs). unfold bind, outcome in *.
    destruct (processFile sys v folderId file w) as [[[c| |] w1] t1];
      cbn [fst snd] in *; try discriminate. reflexivity.
  - cbn [app processFiles].
    pose proof (processFile_client sys v folderId f w) as Hp.
    unfold bind, outcome, trace in *.
    destruct (processFile sys v folderId f w) as [[[c| |] w1] t1];
      cbn [fst snd] in *.
    + destruct (IH c w1) as (Ha & Hu & Hc). unfold outcome, trace in *.
      destruct (processFiles sys v c (before ++ file :: rest) w1)
        as [[o2 w2] t2].
      destruct (processFiles sys v c before w1) as [[o3 w3] t3].
      cbn [fst snd] in *. rewrite !filter_app, Hu. now repeat split.
    + now repeat split.
    + repeat split. intros Hs. now apply Hp in Hs.
Qed.

Lemma empty_name_aborts_witness :
  let v := Demo.vars ["report.txt"; ""; "notes.txt"] false "" true false "" in
  let r := processFiles Demo.sys v "root" ["report.txt"; ""; "notes.txt"]
             Demo.blank in
  outcome r = Exit /\
  filter is_upload (trace r) = [targetLine "report.txt"].
Proof.
  cbv zeta.
  destruct (empty_name_aborts Demo.sys
              (Demo.vars ["report.txt"; ""; "notes.txt"] false "" true false "")
              ["report.txt"] "" ["notes.txt"] eq_refl "root" Demo.blank)
    as (_ & Hu & Hc).
  split; [exact (Hc eq_refl)|].
  etransitivity; [exact Hu|reflexivity].
Defined.

(** ** The flags *)

Lemma ParseBool_error value :
  snd (GoLib.ParseBool value) = true -> fst (GoLib.ParseBool value) = false.
Proof.
  unfold GoLib.ParseBool.
  destruct (existsb _ _); [discriminate|].
  destruct (existsb _ _); [discriminate|reflexivity].
Qed.

Lemma with_input_same GetInput key value :
  with_input GetInput key value key = value.
Proof. unfold with_input. now rewrite String.eqb_refl. Qed.

Lemma flagInput_silent GetInput key value lv w :
  value <> "" ->
  snd (GoLib.ParseBool value) = true ->
  flagInput (with_input GetInput key value) lv key w = (Ret false, w, []).
Proof.
  intros Hne Herr. unfold flagInput. rewrite with_input_same.
  destruct (String.eqb_spec value ""); [contradiction|].
  now rewrite ParseBool_error.
Qed.

Lemma flagInput_disabled GetInput key lv w :
  flagInput (with_input GetInput key "") lv key w
  = (Ret false, w, [Logf lv "%s is disabled." [AStr key]]).
Proof. unfold flagInput. now rewrite with_input_same. Qed.

Lemma same_effects_refl {A} (r : Outcome A * World * list Event) :
  same_effects r r.
Proof. now repeat split. Qed.

Lemma same_effects_bind {A B} (m1 m2 : M A) (k1 k2 : A -> M B) w :
  same_effects (m1 w) (m2 w) ->
  (forall a w', same_effects (k1 a w') (k2 a w')) ->
  same_effects (bind m1 k1 w) (bind m2 k2 w).
Proof.
  unfold same_effects, bind, outcome, world, trace, unlogged.
  destruct (m1 w) as [[o1 w1] t1], (m2 w) as [[o2 w2] t2]; cbn [fst snd].
  intros (-> & -> & Ht) Hk.
  destruct o2 as [a| |]; cbn [fst snd]; try now repeat split.
  specialize (Hk a w2).
  destruct (k1 a w2) as [[o3 w3] t3], (k2 a w2) as [[o4 w4] t4].
  cbn [fst snd] in *. destruct Hk as (-> & -> & Ht').
  rewrite !filter_app, Ht, Ht'. now repeat split.
Qed.

Lemma same_effects_flag GetInput key value lv w :
  value <> "" ->
  snd (GoLib.ParseBool value) = true ->
  same_effects (flagInput (with_input GetInput key value) lv key w)
    (flagInput (with_input GetInput key "") lv key w).
Proof.
  intros Hne Herr.
  rewrite flagInput_silent, flagInput_disabled by assumption.
  now repeat split.
Qed.

Ltac same_run :=
  repeat first
    [ apply same_effects_refl
    | apply same_effects_flag; assumption
    | apply same_effects_bind; [|intros; cbv beta] ].

(** C10.  A flag input that is not empty and that [strconv.ParseBool]
    rejects gives the flag the value false without a printed line, an error
    or an exit; and the run with such a value for one of the three flags has
    the outcome, the final world and the calls of the run that leaves the
    flag empty: the two differ at most in the lines printed. *)
Theorem unparseable_flag_is_false sys GetInput key value w :
  In key [overwriteInput; useCompleteSourceName; mirrorDirectoryStructureInput] ->
  value <> "" ->
  snd (GoLib.ParseBool value) = true ->
  (forall lv w',
      flagInput (with_input GetInput key value) lv key w'
      = (Ret false, w', [])) /\
  same_effects (main sys (with_input GetInput key value) w)
    (main sys (with_input GetInput key "") w).
Proof.
  intros Hkey Hne Herr. split.
  - intros. now apply flagInput_silent.
  - unfold main. cbv zeta.
    destruct Hkey as [<-|[<-|[<-|[]]]]; same_run.
Qed.

Lemma unparseable_flag_is_false_witness :
  let yes := Demo.inputs "yes" "" "" in
  let off := Demo.inputs "" "" "" in
  flagInput yes LWarning overwriteInput Demo.shared = (Ret false, Demo.shared, []) /\
  outcome (main Demo.sys yes Demo.shared) = outcome (main Demo.sys off Demo.shared) /\
  world (main Demo.sys yes Demo.shared) = world (main Demo.sys off Demo.shared).
Proof.
  cbv zeta.
  destruct (unparseable_flag_is_false Demo.sys (Demo.inputs "" "" "")
              overwriteInput "yes" Demo.shared)
    as (H1 & H2 & H3 & _);
    [now left | discriminate | reflexivity |].
  split; [exact (H1 LWarning Demo.shared)|]. split; [exact H2|exact H3].
Defined.

(** ** More on the overwrite decision *)

Lemma currentFileOf_in_place folderId name files :
  existsb (in_place folderId name) files = true ->
  forall currentFile,
    currentFileOf folderId name files currentFile
    = find (in_place folderId name) files.
Proof.
  unfold in_place.
  induction files as [|i files IH]; intros H cur; [discriminate|].
  cbn [currentFileOf find existsb] in *.
  destruct (named name i); cbn [andb orb] in *.
  - destruct (in_folder folderId i); cbn [orb] in *; [reflexivity|].
    now apply IH.
  - now apply IH.
Qed.

(** X1.  With the overwrite flag set, when the response of the search has an
    object that carries the name and has the target folder among its
    parents, the first such object of the response is the one updated,
    whatever namesakes in other folders stand before or behind it; nothing
    is created. *)
Theorem overwrite_takes_first_in_place sys filename folderId name mimeType w i :
  next_fails w = false ->
  find (in_place folderId name) (listing sys (nameQuery name) w) = Some i ->
  let r := uploadFile sys Client filename folderId name mimeType true w in
  r = after (searchTrace sys folderId name w)
        (uploadToDrive sys Client filename folderId (Some i) name mimeType
           (drawn w)) /\
  filter is_create (trace r) = [] /\
  (forall o,
      lstat sys filename = Some false ->
      can_open sys filename = true ->
      next_fails (drawn w) = false ->
      find (has_id (Id i)) (store w) = Some o ->
      outcome r = Ret None /\
      filter is_write (trace r)
      = [FilesUpdate (Id i) (mkDriveFile "" name mimeType []) folderId
           filename]).
Proof.
  intros Hok Hfind. cbv zeta.
  assert (Hex : existsb (in_place folderId name)
                  (listing sys (nameQuery name) w) = true).
  { apply existsb_exists. exists i. apply find_some in Hfind. tauto. }
  rewrite uploadFile_overwrite by assumption.
  fold (nameQuery name).
  rewrite currentFileOf_in_place, Hfind by assumption.
  destruct (searchTrace_calls sys folderId name w) as [Hc _].
  destruct (searchTrace_writes sys folderId name w) as [Hw _].
  split; [reflexivity|]. split.
  - unfold after, trace at 1; cbn [fst snd]. rewrite filter_app, Hc.
    apply uploadToDrive_update_only.
  - intros o H1 H2 H3 H4.
    rewrite (uploadToDrive_updates sys filename folderId i name mimeType
               (drawn w) o H1 H2 H3 H4).
    unfold after, outcome, world, trace; cbn [fst snd].
    rewrite filter_app, Hw. now cbn.
Qed.

Lemma overwrite_takes_first_in_place_witness :
  let w := mkWorld [Demo.object "E" "report.txt" "text/plain" ["other"];
                    Demo.object "R1" "report.txt" "text/plain" ["root"];
                    Demo.object "R2" "report.txt" "text/plain" ["root"]] [] [] in
  let r := uploadFile Demo.sys Client "report.txt" "root" "report.txt"
             "text/csv" true w in
  outcome r = Ret None /\
  filter is_write (trace r)
  = [FilesUpdate "R1" (mkDriveFile "" "report.txt" "text/csv" []) "root"
       "report.txt"].
Proof.
  cbv zeta.
  pose proof (overwrite_takes_first_in_place Demo.sys "report.txt" "root"
                "report.txt" "text/csv"
                (mkWorld [Demo.object "E" "report.txt" "text/plain" ["other"];
                          Demo.object "R1" "report.txt" "text/plain" ["root"];
                          Demo.object "R2" "report.txt" "text/plain" ["root"]]
                   [] [])
                (mkDriveFile "R1" "report.txt" "text/plain" ["root"])
                eq_refl eq_refl) as H.
  cbv zeta in H. destruct H as (_ & _ & H).
  apply (H (Demo.object "R1" "report.txt" "text/plain" ["root"]));
    reflexivity.
Defined.

(** ** Failures of the transfer primitive *)

(** X2.  An upload that does not end with a nil error has changed nothing in
    the store: whether the file could not be examined or opened, the service
    is nil or the remote call failed. *)
Theorem failed_upload_changes_nothing sys s filename folderId driveFile name
  mimeType w :
  let r := uploadToDrive sys s filename folderId driveFile name mimeType w in
  outcome r <> Ret None -> store (world r) = store w.
Proof.
  cbv zeta. run_upload.
  destruct (lstat sys filename) as [[|]|]; cbn; try reflexivity.
  destruct (can_open sys filename); cbn; try reflexivity.
  destruct driveFile, s; cbn; try reflexivity;
    destruct (hd false (faults w)); cbn; try reflexivity;
    try (destruct (find _ (store w)); cbn; try reflexivity);
    intros H; now contradiction H.
Qed.

Lemma failed_upload_changes_nothing_witness :
  let w := mkWorld (store Demo.shared) [true] [] in
  let r := uploadToDrive Demo.sys Client "report.txt" "root"
             (Some (mkDriveFile "R" "report.txt" "text/plain" ["root"]))
             "report.txt" "text/csv" w in
  store (world r) = store Demo.shared.
Proof.
  cbv zeta.
  apply (failed_upload_changes_nothing Demo.sys Client "report.txt" "root"
           (Some (mkDriveFile "R" "report.txt" "text/plain" ["root"]))
           "report.txt" "text/csv" (mkWorld (store Demo.shared) [true] [])).
  discriminate.
Defined.

(** X3.  On a client [uploadToDrive] ends with a nil error in exactly two
    cases: the path is a directory, or it is a file that opens and the
    remote call succeeds (for an update: on an object the store has). *)
Theorem upload_succeeds_iff sys filename folderId driveFile name mimeType w :
  outcome (uploadToDrive sys Client filename folderId driveFile name mimeType w)
  = Ret None
  <->
  lstat sys filename = Some true \/
  (lstat sys filename = Some false /\
   can_open sys filename = true /\
   next_fails w = false /\
   match driveFile with
   | Some d => existsb (has_id (Id d)) (store w) = true
   | None => True
   end).
Proof.
  unfold next_fails. run_upload.
  destruct (lstat sys filename) as [[|]|]; cbn.
  - split; [now left|reflexivity].
  - destruct (can_open sys filename); cbn.
    + destruct driveFile as [d|]; cbn;
        destruct (hd false (faults w)); cbn.
      * split; [discriminate|]. intros [H|(_ & _ & H & _)]; discriminate H.
      * destruct (find (has_id (Id d)) (store w)) as [o|] eqn:E; cbn.
        -- split; [|reflexivity]. intros _. right. repeat split.
           apply existsb_exists. exists o. apply find_some in E. tauto.
        -- split; [discriminate|]. intros [H|(_ & _ & _ & H)]; [discriminate|].
           apply existsb_exists in H as (o & Ho & Hid).
           now rewrite (find_none _ _ E o Ho) in Hid.
      * split; [discriminate|]. intros [H|(_ & _ & H & _)]; discriminate H.
      * split; [|reflexivity]. intros _. right. now repeat split.
    + split; [discriminate|]. intros [H|(_ & H & _)]; discriminate H.
  - split; [discriminate|]. intros [H|(H & _)]; discriminate H.
Qed.

(** ** Failures in the loop over the files *)

(** X4.  When [uploadFile] returns an error for a file, the run exits there:
    the world is the one [uploadFile] left, the last line printed is the
    error, and the files behind it are not looked at. *)
Theorem upload_error_is_fatal sys v folderId file rest w final w1 t e w2 t2 :
  folderChoice sys v file w = (Ret final, w1, t) ->
  targetNameOf v file <> "" ->
  uploadFile sys (svc v) file final (withPrefix v (targetNameOf v file))
    (mimeType v) (overwriteFlag v) w1 = (Ret (Some e), w2, t2) ->
  processFiles sys v folderId (file :: rest) w
  = (Exit, w2,
     Logf LInfo "Processing file %s" [AStr file]
     :: t ++ t2 ++ [Logf LError "uploading file failed with error: %s" [AErr e]]).
Proof.
  intros Hf Hn Hu. cbn [processFiles].
  assert (E : processFile sys v folderId file w
              = (Exit, w2,
                 Logf LInfo "Processing file %s" [AStr file]
                 :: t ++ t2
                    ++ [Logf LError "uploading file failed with error: %s"
                          [AErr e]])).
  { rewrite processFile_eq.
    erewrite bind_returns by exact Hf.
    unfold nameAndUpload.
    destruct (String.eqb_spec (targetNameOf v file) ""); [contradiction|].
    rewrite bind_ret.
    erewrite bind_returns by exact Hu.
    reflexivity. }
  unfold bind. now rewrite E.
Qed.

Lemma upload_error_is_fatal_witness :
  let v := Demo.vars ["missing.txt"; "report.txt"] false "" false false "" in
  processFiles Demo.sys v "root" ["missing.txt"; "report.txt"] Demo.blank
  = (Exit, Demo.blank,
     [Logf LInfo "Processing file %s" [AStr "missing.txt"];
      targetLine "missing.txt"; Lstat "missing.txt";
      Logf LError "uploading file failed with error: %s"
        [AErr (Errorf "unable to stat file: %w" [AErr (Cause "lstat")])]]).
Proof.
  cbv zeta.
  apply (upload_error_is_fatal Demo.sys
           (Demo.vars ["missing.txt"; "report.txt"] false "" false false "")
           "root" "missing.txt" ["report.txt"] Demo.blank "root" Demo.blank []
           (Errorf "unable to stat file: %w" [AErr (Cause "lstat")])
           Demo.blank [targetLine "missing.txt"; Lstat "missing.txt"]);
    [reflexivity | discriminate | reflexivity].
Defined.

(** X5.  A failure of the resolver ends the mirroring with the fatal exit.
    When its search fails it returns an error without a create; when no
    folder is found and the create fails it returns an error and the store
    is as before; in both cases the loop over the segments exits and the
    segments behind are not resolved. *)
Theorem resolver_failure_is_fatal sys parent segment segments w :
  (next_fails w = true ->
   createDriveDirectory sys Client parent segment w
   = (Ret ("", Some (Errorf "unable to retrieve files: %w"
                       [AErr (Cause "drive")])),
      drawn w,
      [Logf LInfo "Checking for existing folder %s" [AStr segment];
       FilesList (folderQuery segment)]) /\
   outcome (mirrorDirectories sys Client parent (segment :: segments) w) = Exit /\
   filter is_write
     (trace (mirrorDirectories sys Client parent (segment :: segments) w)) = []) /\
  (next_fails w = false ->
   filter (in_folder parent) (listing sys (folderQuery segment) w) = [] ->
   next_fails (drawn w) = true ->
   outcome (createDriveDirectory sys Client parent segment w)
   = Ret ("", Some (Errorf "creating folder failed with error: %w"
                      [AErr (Cause "drive")])) /\
   store (world (createDriveDirectory sys Client parent segment w)) = store w /\
   outcome (mirrorDirectories sys Client parent (segment :: segments) w) = Exit /\
   store (world (mirrorDirectories sys Client parent (segment :: segments) w))
   = store w).
Proof.
  split.
  - intros Hbad.
    pose proof (createDriveDirectory_search_fails sys parent segment w Hbad)
      as E.
    split; [exact E|].
    cbn [mirrorDirectories]. unfold bind. rewrite E. now cbn.
  - intros Hok Hnone Hbad.
    assert (E : createDriveDirectory sys Client parent segment w
                = (Ret ("", Some (Errorf "creating folder failed with error: %w"
                                    [AErr (Cause "drive")])),
                   drawn (drawn w),
                   resolveTrace sys parent segment w
                   ++ [Logf LInfo "Creating folder: %s" [AStr segment];
                       FilesCreate
                         (mkDriveFile "" segment folderMimeType [parent])
                         None])).
    { rewrite createDriveDirectory_search by assumption. cbv zeta.
      assert (fst (foundIn parent (listing sys (folderQuery segment) w) (0, ""))
              = 0) as -> by (apply foundIn_fst; now split).
      cbn [Nat.eqb].
      erewrite bind_returns
        by (rewrite Files_Create_client, Hbad; reflexivity).
      reflexivity. }
    rewrite E. split; [reflexivity|]. split; [reflexivity|].
    cbn [mirrorDirectories]. unfold bind. rewrite E. now cbn.
Qed.

Lemma resolver_failure_is_fatal_witness :
  outcome (mirrorDirectories Demo.sys Client "root" ["a"; "b"]
             (mkWorld (store Demo.twins) [true] [])) = Exit /\
  outcome (mirrorDirectories Demo.sys Client "root" ["b"; "c"]
             (mkWorld (store Demo.twins) [false; true] [])) = Exit /\
  store (world (mirrorDirectories Demo.sys Client "root" ["b"; "c"]
                  (mkWorld (store Demo.twins) [false; true] [])))
  = store Demo.twins.
Proof.
  pose proof (resolver_failure_is_fatal Demo.sys "root" "a" ["b"]
                (mkWorld (store Demo.twins) [true] [])) as [H _].
  pose proof (resolver_failure_is_fatal Demo.sys "root" "b" ["c"]
                (mkWorld (store Demo.twins) [false; true] [])) as [_ H'].
  destruct (H eq_refl) as (_ & H1 & _).
  destruct (H' eq_refl eq_refl eq_refl) as (_ & _ & H2 & H3).
  split; [exact H1|]. split; [exact H2|exact H3].
Defined.

(** ** A run that returns *)

Lemma uploadToDrive_prints_no_target sys s filename folderId driveFile name
  mimeType w :
  filter is_upload
    (trace (uploadToDrive sys s filename folderId driveFile name mimeType w))
  = [].
Proof. upload_cases sys filename s driveFile w. Qed.

Lemma searchTrace_targets sys folderId name w :
  filter is_upload (searchTrace sys folderId name w) = [targetLine name].
Proof.
  unfold searchTrace. cbn.
  destruct (existsb _ _); destruct (currentFileOf _ _ _ _); now cbn.
Qed.

Lemma uploadFile_targets sys s filename folderId name mimeType overwrite w :
  filter is_upload
    (trace (uploadFile sys s filename folderId name mimeType overwrite w))
  = [targetLine name].
Proof.
  destruct overwrite.
  - destruct s.
    + now rewrite uploadFile_nil.
    + destruct (next_fails w) eqn:E.
      * now rewrite uploadFile_search_fails by assumption.
      * rewrite uploadFile_overwrite by assumption.
        unfold after, trace at 1; cbn [fst snd].
        rewrite filter_app, searchTrace_targets,
          uploadToDrive_prints_no_target. reflexivity.
  - rewrite uploadFile_plain. unfold after, trace at 1; cbn [fst snd].
    rewrite filter_app, uploadToDrive_prints_no_target. reflexivity.
Qed.

Lemma processFile_returns sys v folderId file w left w' t :
  processFile sys v folderId file w = (Ret left, w', t) ->
  filter is_upload t = [targetLine (withPrefix v (targetNameOf v file))].
Proof.
  rewrite processFile_eq.
  destruct (folderChoice_cases sys v file w) as [Hu _]. cbv zeta in Hu.
  unfold bind, after, outcome, world, trace in *.
  destruct (folderChoice sys v file w) as [[[final| |] w1] t1];
    cbn [fst snd] in *; try discriminate.
  unfold nameAndUpload.
  destruct (String.eqb (targetNameOf v file) ""); [discriminate|].
  rewrite bind_ret.
  pose proof (uploadFile_targets sys (svc v) file final
                (withPrefix v (targetNameOf v file)) (mimeType v)
                (overwriteFlag v) w1) as Ht.
  unfold bind, trace in *.
  destruct (uploadFile _ _ _ _ _ _ _ w1) as [[[[e|]| |] w2] t2];
    cbn [fst snd] in *; try discriminate.
  intros [= <- <- <-]. cbn [filter is_upload String.eqb].
  rewrite !filter_app, Hu, Ht. reflexivity.
Qed.

(** X6.  A run of the loop that returns has entered [uploadFile] once for
    each file, in the order of the files, each time with the name chosen for
    that file behind the prefix. *)
Theorem returning_run_uploads_each_file sys v files :
  forall folderId w left w' t,
    processFiles sys v folderId files w = (Ret left, w', t) ->
    filter is_upload t
    = map (fun file => targetLine (withPrefix v (targetNameOf v file))) files.
Proof.
  induction files as [|file files IH]; intros folderId w left w' t.
  - cbn. unfold ret. now intros [= <- <- <-].
  - cbn [processFiles map]. unfold bind.
    destruct (processFile sys v folderId file w) as [[[c| |] w1] t1] eqn:E;
      try discriminate.
    destruct (processFiles sys v c files w1) as [[o2 w2] t2] eqn:E2.
    intros [= -> <- <-].
    rewrite filter_app, (processFile_returns _ _ _ _ _ _ _ _ E),
      (IH _ _ _ _ _ E2). reflexivity.
Qed.

Lemma returning_run_uploads_each_file_witness :
  let v := Demo.vars ["docs"; "a/report.txt"] false "given" false false "v1-" in
  exists left w' t,
    processFiles Demo.sys v "root" ["docs"; "a/report.txt"] Demo.blank
    = (Ret left, w', t) /\
    filter is_upload t = [targetLine "v1-docs"; targetLine "v1-report.txt"].
Proof.
  cbv zeta. eexists. eexists. eexists. split; [vm_compute; reflexivity|].
  refine (returning_run_uploads_each_file Demo.sys
            (Demo.vars ["docs"; "a/report.txt"] false "given" false false "v1-")
            ["docs"; "a/report.txt"] "root" Demo.blank _ _ _ _).
  vm_compute. reflexivity.
Defined.

(** ** What an overwrite may touch *)

Lemma currentFileOf_namesake folderId name files :
  forall currentFile i,
    currentFileOf folderId name files currentFile = Some i ->
    currentFile = Some i \/ (In i files /\ named name i = true).
Proof.
  induction files as [|j files IH]; intros cur i; cbn [currentFileOf].
  - now left.
  - destruct (named name j) eqn:Hn.
    + destruct (in_folder folderId j).
      * intros [= ->]. right. split; [now left|exact Hn].
      * intros H. apply IH in H as [[= ->]|[Hin Hi]].
        -- right. split; [now left|exact Hn].
        -- right. split; [now right|exact Hi].
    + intros H. apply IH in H as [H|[Hin Hi]]; [now left|].
      right. split; [now right|exact Hi].
Qed.

Lemma uploadToDrive_update_request sys s filename folderId driveFile name
  mimeType w e :
  In e (trace (uploadToDrive sys s filename folderId driveFile name mimeType w)) ->
  is_update e = true ->
  exists d,
    driveFile = Some d /\
    e = FilesUpdate (Id d) (mkDriveFile "" name mimeType []) folderId filename.
Proof.
  run_upload.
  destruct (lstat sys filename) as [[|]|]; cbn;
    try (intros H He; repeat (destruct H as [<-|H]; [discriminate He|]);
         contradiction).
  destruct (can_open sys filename); cbn;
    try (intros H He; repeat (destruct H as [<-|H]; [discriminate He|]);
         contradiction).
  destruct driveFile as [d|], s; cbn;
    try (intros H He; repeat (destruct H as [<-|H]; [discriminate He|]);
         contradiction);
    destruct (hd false (faults w)); cbn;
    try (destruct (find _ (store w)); cbn);
    intros H He;
    repeat (destruct H as [<-|H];
            [first [discriminate He | (exists d; now split)]|]);
    contradiction.
Qed.

Lemma filter_none_In {A} (p : A -> bool) l e :
  filter p l = [] -> In e l -> p e = false.
Proof.
  intros Hf Hin. destruct (p e) eqn:E; [|reflexivity].
  assert (In e (filter p l)) by (apply filter_In; now split).
  rewrite Hf in H. contradiction.
Qed.

(** X7.  [uploadFile] sends an update only with the overwrite flag set, and
    then only to an object the search returned under exactly the target
    name: the request carries that object's identifier, the target name,
    the mime type and the file, and adds the target folder.  An object
    under another name is never updated. *)
Theorem only_namesakes_are_updated sys s filename folderId name mimeType
  overwrite w e :
  In e (trace (uploadFile sys s filename folderId name mimeType overwrite w)) ->
  is_update e = true ->
  overwrite = true /\
  exists i,
    In i (listing sys (nameQuery name) w) /\
    Name i = name /\
    e = FilesUpdate (Id i) (mkDriveFile "" name mimeType []) folderId filename.
Proof.
  intros Hin He. destruct overwrite.
  - split; [reflexivity|]. destruct s.
    + rewrite uploadFile_nil in Hin. destruct Hin as [<-|[]]. discriminate He.
    + destruct (next_fails w) eqn:E.
      * rewrite uploadFile_search_fails in Hin by assumption.
        cbn in Hin. repeat (destruct Hin as [<-|Hin]; [discriminate He|]).
        contradiction.
      * rewrite uploadFile_overwrite in Hin by assumption.
        unfold after, trace at 1 in Hin; cbn [fst snd] in Hin.
        apply in_app_or in Hin as [Hin|Hin].
        -- destruct (searchTrace_calls sys folderId name w) as [_ Hu].
           rewrite (filter_none_In _ _ _ Hu Hin) in He. discriminate.
        -- apply uploadToDrive_update_request in Hin as (d & Hd & ->);
             [|exact He].
           fold (nameQuery name) in Hd.
           apply currentFileOf_namesake in Hd as [Hd|[Hd Hn]];
             [discriminate|].
           exists d. split; [exact Hd|]. split; [|reflexivity].
           unfold named in Hn. apply String.eqb_eq in Hn. now symmetry.
  - exfalso. rewrite uploadFile_plain in Hin.
    unfold after, trace at 1 in Hin; cbn [fst snd app] in Hin.
    destruct Hin as [<-|Hin]; [discriminate He|].
    apply uploadToDrive_update_request in Hin as (d & Hd & _);
      [discriminate|exact He].
Qed.

Lemma only_namesakes_are_updated_witness :
  exists i,
    In i (listing Demo.sys (nameQuery "report.txt") Demo.elsewhere) /\
    Name i = "report.txt" /\
    FilesUpdate "X" (mkDriveFile "" "report.txt" "text/csv" []) "root"
      "report.txt"
    = FilesUpdate (Id i) (mkDriveFile "" "report.txt" "text/csv" []) "root"
        "report.txt".
Proof.
  refine (proj2 (only_namesakes_are_updated Demo.sys Client "report.txt" "root"
                   "report.txt" "text/csv" true Demo.elsewhere
                   (FilesUpdate "X"
                      (mkDriveFile "" "report.txt" "text/csv" []) "root"
                      "report.txt") _ eq_refl)).
  vm_compute. tauto.
Defined.

(** ** The files a run opens *)

Lemma resolveTrace_opens sys folderId name w :
  filter is_open (resolveTrace sys folderId name w) = [].
Proof.
  unfold resolveTrace. rewrite filter_app, filter_foundLine by reflexivity.
  reflexivity.
Qed.

Lemma createDriveDirectory_opens sys s folderId name w :
  filter is_open (trace (createDriveDirectory sys s folderId name w)) = [].
Proof.
  destruct s; [now rewrite createDriveDirectory_nil|].
  destruct (next_fails w) eqn:E.
  - now rewrite createDriveDirectory_search_fails by assumption.
  - rewrite createDriveDirectory_search by assumption. cbv zeta.
    pose proof (resolveTrace_opens sys folderId name w) as Ho.
    destruct (Nat.eqb _ 0).
    + destruct (next_fails (drawn w)) eqn:Ef;
        (erewrite bind_returns
          by (rewrite Files_Create_client, Ef; reflexivity));
        unfold after, trace, ret; cbn [fst snd];
        rewrite !filter_app, Ho; reflexivity.
    + unfold after, trace; cbn [fst snd]. rewrite filter_app, Ho. reflexivity.
Qed.

Lemma mirrorDirectories_opens sys s segments : forall folderId w,
  filter is_open (trace (mirrorDirectories sys s folderId segments w)) = [].
Proof.
  induction segments as [|segment segments IH]; intros folderId w;
    [reflexivity|].
  cbn [mirrorDirectories].
  pose proof (createDriveDirectory_opens sys s folderId segment w) as Ho.
  unfold bind, trace in *.
  destruct (createDriveDirectory sys s folderId segment w)
    as [[[[folder [err|]]| |] w1] t1]; cbn [fst snd] in *; try exact Ho.
  - unfold Fatalf. cbn [fst snd]. rewrite filter_app, Ho. reflexivity.
  - specialize (IH folder w1).
    destruct (mirrorDirectories sys s folder segments w1) as [[o w2] t2].
    cbn [fst snd] in *. rewrite filter_app, Ho, IH. reflexivity.
Qed.

Lemma folderChoice_opens sys v file w :
  filter is_open (trace (folderChoice sys v file w)) = [].
Proof.
  unfold folderChoice. destruct (mirrorDirectoryStructureFlag v);
    [|reflexivity].
  rewrite bind_logf. unfold after, trace at 1; cbn [fst snd app filter is_open].
  apply mirrorDirectories_opens.
Qed.

Lemma uploadToDrive_returns_opens sys s filename folderId driveFile name
  mimeType w w' t :
  uploadToDrive sys s filename folderId driveFile name mimeType w
  = (Ret None, w', t) ->
  filter is_open t = map Open (plainFiles sys [filename]).
Proof.
  unfold plainFiles. cbn [filter]. run_upload.
  destruct (lstat sys filename) as [[|]|]; cbn; try discriminate.
  - now intros [= _ <-].
  - destruct (can_open sys filename); cbn; try discriminate.
    destruct driveFile, s; cbn; try discriminate;
      destruct (hd false (faults w)); cbn; try discriminate;
      try (destruct (find _ (store w)); cbn; try discriminate);
      now intros [= _ <-].
Qed.

Lemma uploadFile_returns_opens sys s filename folderId name mimeType
  overwrite w w' t :
  uploadFile sys s filename folderId name mimeType overwrite w
  = (Ret None, w', t) ->
  filter is_open t = map Open (plainFiles sys [filename]).
Proof.
  destruct overwrite.
  - destruct s; [rewrite uploadFile_nil; discriminate|].
    destruct (next_fails w) eqn:E.
    + rewrite uploadFile_search_fails by assumption. discriminate.
    + rewrite uploadFile_overwrite by assumption.
      destruct (searchTrace_writes sys folderId name w) as [_ Ho].
      remember (searchTrace sys folderId name w) as st eqn:Est.
      destruct (uploadToDrive _ _ _ _ _ _ _ (drawn w)) as [[o w1] t1] eqn:Eu.
      unfold after, outcome, world, trace; cbn [fst snd]. intros [= -> _ <-].
      apply uploadToDrive_returns_opens in Eu.
      now rewrite filter_app, Ho.
  - rewrite uploadFile_plain.
    destruct (uploadToDrive _ _ _ _ _ _ _ w) as [[o w1] t1] eqn:Eu.
    unfold after, outcome, world, trace; cbn [fst snd]. intros [= -> _ <-].
    apply uploadToDrive_returns_opens in Eu.
    cbn [app filter is_open targetLine]. exact Eu.
Qed.

Lemma processFile_returns_opens sys v folderId file w left w' t :
  processFile sys v folderId file w = (Ret left, w', t) ->
  filter is_open t = map Open (plainFiles sys [file]).
Proof.
  rewrite processFile_eq.
  pose proof (folderChoice_opens sys v file w) as Hq.
  unfold bind, after, outcome, world, trace in *.
  destruct (folderChoice sys v file w) as [[[final| |] w1] t1];
    cbn [fst snd] in *; try discriminate.
  unfold nameAndUpload.
  destruct (String.eqb (targetNameOf v file) ""); [discriminate|].
  rewrite bind_ret. unfold bind.
  destruct (uploadFile _ _ _ _ _ _ _ w1) as [[[[e|]| |] w2] t2] eqn:Eu;
    cbn [fst snd] in *; try discriminate.
  intros [= _ _ <-].
  apply uploadFile_returns_opens in Eu.
  cbn [app filter is_open]. rewrite !filter_app, Hq, Eu. cbn.
  now rewrite app_nil_r.
Qed.

(** X8.  When the loop over the files returns, [uploadToDrive] has opened
    each matched file that [os.Lstat] did not report as a directory exactly
    once, in the order of the files, and has opened no other path. *)
Theorem returning_run_opens_each_file_once sys v files :
  forall folderId w left w' t,
    processFiles sys v folderId files w = (Ret left, w', t) ->
    filter is_open t = map Open (plainFiles sys files).
Proof.
  induction files as [|file files IH]; intros folderId w left w' t.
  - cbn. unfold ret. now intros [= _ _ <-].
  - cbn [processFiles]. unfold bind.
    destruct (processFile sys v folderId file w) as [[[c| |] w1] t1] eqn:E;
      try discriminate.
    destruct (processFiles sys v c files w1) as [[o2 w2] t2] eqn:E2.
    intros [= -> _ <-].
    apply processFile_returns_opens in E. apply IH in E2.
    rewrite filter_app, E, E2, <- map_app. f_equal.
    change (file :: files) with ([file] ++ files).
    unfold plainFiles. now rewrite filter_app.
Qed.

Lemma returning_run_opens_each_file_once_witness :
  let v := Demo.vars ["report.txt"; "docs"; "notes.txt"] true "" false true "" in
  exists left w' t,
    processFiles Demo.sys v "root" ["report.txt"; "docs"; "notes.txt"]
      Demo.shared = (Ret left, w', t) /\
    filter is_open t = [Open "report.txt"; Open "notes.txt"].
Proof.
  cbv zeta. eexists. eexists. eexists. split; [vm_compute; reflexivity|].
  refine (returning_run_opens_each_file_once Demo.sys
            (Demo.vars ["report.txt"; "docs"; "notes.txt"] true "" false true "")
            ["report.txt"; "docs"; "notes.txt"] "root" Demo.shared _ _ _ _).
  vm_compute. reflexivity.
Defined.

(** ** The checks of [main] *)

Lemma flagInput_eq GetInput lv key w :
  flagInput GetInput lv key w
  = (Ret (flagOf GetInput key), w, flagLines lv GetInput key).
Proof.
  unfold flagInput, flagOf, flagLines.
  now destruct (String.eqb (GetInput key) "").
Qed.

Lemma bind_Fatalf {A B} format args (k : A -> M B) w :
  bind (Fatalf format args) k w = (Exit, w, [Logf LError format args]).
Proof. reflexivity. Qed.

Lemma flagLines_effects lv GetInput key :
  filter is_effect (flagLines lv GetInput key) = [].
Proof. unfold flagLines. now destruct (String.eqb _ _). Qed.

Lemma preludeOf_effects sys GetInput files decoded :
  filter is_effect (preludeOf sys GetInput files decoded) = [].
Proof.
  unfold preludeOf. rewrite !filter_app, !flagLines_effects.
  cbn. now destruct (accepts sys _).
Qed.

Ltac main_step :=
  rewrite ?bind_bind;
  first [ rewrite bind_Fatalf
        | rewrite bind_ret
        | rewrite bind_logf
        | rewrite bind_emit
        | erewrite bind_returns by apply flagInput_eq ];
  cbv beta.

Ltac exits :=
  eexists; split; [reflexivity|];
  unfold after, outcome, world, trace;
  cbn [fst snd app filter is_effect];
  rewrite ?filter_app, ?flagLines_effects; reflexivity.

(** When every check passes [main] is the loop over the matched files behind
    what it prints and masks. *)
Lemma main_accepted sys GetInput files decoded w :
  accepted sys GetInput = Some (files, decoded) ->
  main sys GetInput w
  = after (preludeOf sys GetInput files decoded)
      (bind (processFiles sys (varsOf sys GetInput files decoded)
               (GetInput folderIdInput) files)
         (fun _ => ret tt) w).
Proof.
  unfold accepted, main, missingInput. cbv zeta.
  destruct (String.eqb (GetInput filenameInput) ""); [discriminate|].
  destruct (glob sys (GetInput filenameInput)) as [fs|]; [|discriminate].
  destruct (Nat.eqb (length fs) 0); [discriminate|].
  destruct (String.eqb (GetInput folderIdInput) ""); [discriminate|].
  destruct (String.eqb (GetInput credentialsInput) ""); [discriminate|].
  destruct (base64_decode sys (GetInput credentialsInput)) as [d|];
    [|discriminate].
  intros [= -> ->].
  do 9 main_step. rewrite ?bind_bind.
  unfold preludeOf, varsOf.
  destruct (accepts sys (GoLib.TrimSuffix decoded newline));
    repeat main_step; rewrite ?after_after; f_equal;
    cbn [app]; now rewrite <- ?app_assoc.
Qed.

(** When a check fails [main] exits before it has touched a file or the
    store. *)
Lemma main_rejected sys GetInput w :
  accepted sys GetInput = None ->
  exists t, main sys GetInput w = (Exit, w, t) /\ filter is_effect t = [].
Proof.
  unfold accepted, main, missingInput. cbv zeta.
  destruct (String.eqb (GetInput filenameInput) ""); [intros _; exits|].
  do 2 main_step.
  destruct (glob sys (GetInput filenameInput)) as [fs|]; [|intros _; exits].
  main_step.
  destruct (Nat.eqb (length fs) 0); [intros _; exits|].
  do 2 main_step.
  destruct (String.eqb (GetInput folderIdInput) ""); [intros _; exits|].
  do 3 main_step.
  destruct (String.eqb (GetInput credentialsInput) ""); [intros _; exits|].
  do 2 main_step.
  destruct (base64_decode sys (GetInput credentialsInput)); [discriminate|].
  intros _. exits.
Qed.

Lemma remote_is_effect t :
  filter is_effect t = [] -> filter is_remote t = [].
Proof.
  induction t as [|e t IH]; [reflexivity|]. cbn [filter].
  destruct e; cbn; try discriminate; exact IH.
Qed.

Lemma filter_either {A} (p q : A -> bool) l :
  filter p l = [] -> filter q l = [] -> filter (fun e => p e || q e) l = [].
Proof.
  induction l as [|x l IH]; [reflexivity|]. cbn [filter].
  destruct (p x); [discriminate|]. destruct (q x); [discriminate|].
  exact IH.
Qed.

Lemma filter_skip {A} (p : A -> bool) e l :
  p e = false -> filter p (e :: l) = filter p l.
Proof. intros H. cbn. now rewrite H. Qed.

Lemma flagLines_uploads lv GetInput key :
  filter is_upload (flagLines lv GetInput key) = [].
Proof.
  unfold flagLines. destruct (String.eqb _ _); [|reflexivity].
  now destruct lv.
Qed.

Lemma preludeOf_uploads sys GetInput files decoded :
  filter is_upload (preludeOf sys GetInput files decoded) = [].
Proof.
  unfold preludeOf. rewrite !filter_app, !flagLines_uploads.
  cbn. now destruct (accepts sys _).
Qed.

Ltac exits_quietly :=
  eexists; split; [reflexivity|];
  unfold after, outcome, world, trace;
  cbn [fst snd app];
  repeat first [ rewrite filter_skip by reflexivity
               | rewrite filter_app
               | rewrite flagLines_uploads ];
  reflexivity.

(** When a check fails [main] exits before [uploadFile] is entered. *)
Lemma main_rejected_early sys GetInput w :
  accepted sys GetInput = None ->
  exists t, main sys GetInput w = (Exit, w, t) /\ filter is_upload t = [].
Proof.
  unfold accepted, main, missingInput. cbv zeta.
  destruct (String.eqb (GetInput filenameInput) "");
    [intros _; exits_quietly|].
  do 2 main_step.
  destruct (glob sys (GetInput filenameInput)) as [fs|];
    [|intros _; exits_quietly].
  main_step.
  destruct (Nat.eqb (length fs) 0); [intros _; exits_quietly|].
  do 2 main_step.
  destruct (String.eqb (GetInput folderIdInput) "");
    [intros _; exits_quietly|].
  do 3 main_step.
  destruct (String.eqb (GetInput credentialsInput) "");
    [intros _; exits_quietly|].
  do 2 main_step.
  destruct (base64_decode sys (GetInput credentialsInput)); [discriminate|].
  intros _. exits_quietly.
Qed.

Lemma accepted_none sys GetInput :
  accepted sys GetInput = None <->
  GetInput filenameInput = "" \/
  glob sys (GetInput filenameInput) = None \/
  glob sys (GetInput filenameInput) = Some [] \/
  GetInput folderIdInput = "" \/
  GetInput credentialsInput = "" \/
  base64_decode sys (GetInput credentialsInput) = None.
Proof.
  unfold accepted.
  destruct (String.eqb_spec (GetInput filenameInput) "") as [E1|E1];
    [tauto|].
  destruct (glob sys (GetInput filenameInput)) as [[|f fs]|]; try tauto.
  cbn [length Nat.eqb].
  destruct (String.eqb_spec (GetInput folderIdInput) "") as [E2|E2];
    [tauto|].
  destruct (String.eqb_spec (GetInput credentialsInput) "") as [E3|E3];
    [tauto|].
  destruct (base64_decode sys (GetInput credentialsInput)); [|tauto].
  split; [discriminate|]. intros [H|[H|[H|[H|[H|H]]]]]; congruence.
Qed.

(** X9.  [main] exits at one of its checks, with the world as it was,
    before [uploadFile] is entered for any file and before any call reaches
    the store, exactly when the filename input is empty, the pattern is
    malformed, no file matches it, the folderId input is empty, the
    credentials input is empty or the credentials are not base64;
    otherwise it is the loop over the matched files behind what it prints
    and masks. *)
Theorem main_checks_inputs sys GetInput w :
  (GetInput filenameInput = "" \/
   glob sys (GetInput filenameInput) = None \/
   glob sys (GetInput filenameInput) = Some [] \/
   GetInput folderIdInput = "" \/
   GetInput credentialsInput = "" \/
   base64_decode sys (GetInput credentialsInput) = None ->
   outcome (main sys GetInput w) = Exit /\
   world (main sys GetInput w) = w /\
   filter is_upload (trace (main sys GetInput w)) = [] /\
   filter is_remote (trace (main sys GetInput w)) = []) /\
  (forall files decoded,
      GetInput filenameInput <> "" ->
      glob sys (GetInput filenameInput) = Some files ->
      files <> [] ->
      GetInput folderIdInput <> "" ->
      GetInput credentialsInput <> "" ->
      base64_decode sys (GetInput credentialsInput) = Some decoded ->
      main sys GetInput w
      = after (preludeOf sys GetInput files decoded)
          (bind (processFiles sys (varsOf sys GetInput files decoded)
                   (GetInput folderIdInput) files)
             (fun _ => ret tt) w)).
Proof.
  split.
  - intros H. apply accepted_none in H.
    destruct (main_rejected_early sys GetInput w H) as (t' & E' & Hu).
    destruct (main_rejected sys GetInput w H) as (t & E & Ht).
    rewrite E in E'. injection E' as <-. rewrite E.
    split; [reflexivity|]. split; [reflexivity|].
    unfold trace; cbn [snd]. split; [exact Hu|].
    now apply remote_is_effect.
  - intros files decoded H1 H2 H3 H4 H5 H6.
    apply main_accepted. unfold accepted.
    destruct (String.eqb_spec (GetInput filenameInput) ""); [contradiction|].
    rewrite H2. destruct files as [|f fs]; [contradiction|].
    cbn [length Nat.eqb].
    destruct (String.eqb_spec (GetInput folderIdInput) ""); [contradiction|].
    destruct (String.eqb_spec (GetInput credentialsInput) ""); [contradiction|].
    now rewrite H6.
Qed.

Lemma main_checks_inputs_witness :
  outcome (main Demo.sys
             (with_input (Demo.inputs "" "" "") folderIdInput "") Demo.shared)
  = Exit /\
  outcome (main Demo.sys (Demo.inputs "" "" "") Demo.shared)
  = outcome (bind (processFiles Demo.sys
                     (varsOf Demo.sys (Demo.inputs "" "" "")
                        ["report.txt"; "notes.txt"] "secret")
                     "root" ["report.txt"; "notes.txt"])
               (fun _ => ret tt) Demo.shared).
Proof.
  split.
  - apply (main_checks_inputs Demo.sys
             (with_input (Demo.inputs "" "" "") folderIdInput "") Demo.shared).
    right. right. right. left. reflexivity.
  - destruct (main_checks_inputs Demo.sys (Demo.inputs "" "" "") Demo.shared)
      as [_ H].
    rewrite (H ["report.txt"; "notes.txt"] "secret");
      [reflexivity | discriminate | reflexivity | discriminate | discriminate
      | discriminate | reflexivity].
Defined.

Lemma prefix_before {A} (p : A -> bool) (l r t1 t2 : list A) e :
  filter p l = [] -> p e = true -> l ++ r = t1 ++ e :: t2 ->
  exists t0, t1 = l ++ t0.
Proof.
  revert t1. induction l as [|x l IH]; intros t1 Hl He Heq.
  - now exists t1.
  - cbn in Hl. destruct (p x) eqn:Hx; [discriminate|].
    destruct t1 as [|y t1]; cbn in Heq.
    + injection Heq as -> _. congruence.
    + injection Heq as -> Heq.
      destruct (IH t1 Hl He Heq) as [t0 ->]. now exists t0.
Qed.

Lemma accepted_decoded sys GetInput files decoded :
  accepted sys GetInput = Some (files, decoded) ->
  base64_decode sys (GetInput credentialsInput) = Some decoded.
Proof.
  unfold accepted.
  destruct (String.eqb _ ""); [discriminate|].
  destruct (glob sys _); [|discriminate].
  destruct (Nat.eqb _ 0); [discriminate|].
  destruct (String.eqb _ ""); [discriminate|].
  destruct (String.eqb _ ""); [discriminate|].
  destruct (base64_decode sys _); [|discriminate].
  now intros [= _ ->].
Qed.

(** X10.  Before [uploadFile] is entered for the first file and before any
    call reaches the store, [main] has masked the credentials input and the
    decoded credentials without their final newline: in every run both
    masks stand in the trace before the first such event. *)
Theorem credentials_are_masked_first sys GetInput w t1 e t2 :
  trace (main sys GetInput w) = t1 ++ e :: t2 ->
  is_upload e || is_remote e = true ->
  In (AddMask (GetInput credentialsInput)) t1 /\
  exists decoded,
    base64_decode sys (GetInput credentialsInput) = Some decoded /\
    In (AddMask (GoLib.TrimSuffix decoded newline)) t1.
Proof.
  intros Ht He.
  destruct (accepted sys GetInput) as [[files decoded]|] eqn:E.
  - rewrite (main_accepted sys GetInput files decoded w E) in Ht.
    unfold after, trace at 1 in Ht; cbn [fst snd] in Ht.
    assert (Hq : filter (fun e => is_upload e || is_remote e)
                   (preludeOf sys GetInput files decoded) = []).
    { apply filter_either; [apply preludeOf_uploads|].
      apply remote_is_effect, preludeOf_effects. }
    destruct (prefix_before _ _ _ _ _ _ Hq He Ht) as [t0 ->].
    split; [|exists decoded; split; [eapply accepted_decoded; eassumption|]];
      apply in_or_app; left; unfold preludeOf;
      rewrite !in_app_iff; cbn; tauto.
  - exfalso.
    destruct (main_rejected_early sys GetInput w E) as (t' & E' & Hu).
    destruct (main_rejected sys GetInput w E) as (t & Hm & Hf).
    rewrite Hm in E'. injection E' as <-.
    rewrite Hm in Ht. cbn in Ht. subst t.
    assert (Hin : In e (t1 ++ e :: t2)) by (apply in_or_app; right; now left).
    apply orb_true_iff in He as [He|He].
    + rewrite (filter_none_In _ _ _ Hu Hin) in He. discriminate.
    + rewrite (filter_none_In _ _ _ (remote_is_effect _ Hf) Hin) in He.
      discriminate.
Qed.

Lemma credentials_are_masked_first_witness :
  In (AddMask "secret")
    [Logf LInfo "files: %v" [AList ["report.txt"; "notes.txt"]];
     Logf LWarning "%s is disabled." [AStr "false"];
     Logf LInfo "%s is disabled." [AStr "useCompleteSourceFilenameAsName"];
     Logf LInfo "%s is disabled." [AStr "mirrorDirectoryStructureInput"];
     AddMask "secret"; AddMask "secret";
     Logf LInfo "Processing file %s" [AStr "report.txt"]].
Proof.
  refine (proj1 (credentials_are_masked_first Demo.sys (Demo.inputs "" "" "")
                   Demo.blank _ (targetLine "report.txt") _ _ eq_refl)).
  vm_compute. reflexivity.
Defined.

(** ** The inputs [main] reads *)

Lemma main_ext sys G1 G2 w :
  (forall key, In key inputsRead -> G1 key = G2 key) ->
  main sys G1 w = main sys G2 w.
Proof.
  intros H. unfold main, flagInput. cbv zeta.
  rewrite !(H filenameInput) by (cbn; tauto).
  rewrite !(H overwriteInput) by (cbn; tauto).
  rewrite !(H nameInput) by (cbn; tauto).
  rewrite !(H folderIdInput) by (cbn; tauto).
  rewrite !(H mimeTypeInput) by (cbn; tauto).
  rewrite !(H useCompleteSourceName) by (cbn; tauto).
  rewrite !(H mirrorDirectoryStructureInput) by (cbn; tauto).
  rewrite !(H namePrefixInput) by (cbn; tauto).
  rewrite !(H credentialsInput) by (cbn; tauto).
  reflexivity.
Qed.

(** X11.  A run depends on its inputs through nine names only, those of the
    constants.  An input under another name changes nothing; that holds for
    one named [overwrite] and for one named [mirrorDirectoryStructure],
    since the overwrite flag is read under the name [false] and the
    mirroring flag under the name [mirrorDirectoryStructureInput]. *)
Theorem other_inputs_are_not_read sys GetInput w :
  (forall key value,
      ~ In key inputsRead ->
      main sys (with_input GetInput key value) w = main sys GetInput w) /\
  ~ In "overwrite" inputsRead /\
  ~ In "mirrorDirectoryStructure" inputsRead /\
  (forall G1 G2,
      (forall key, In key inputsRead -> G1 key = G2 key) ->
      main sys G1 w = main sys G2 w).
Proof.
  split; [|split; [|split]].
  - intros key value Hkey. apply main_ext. intros k Hk.
    unfold with_input. destruct (String.eqb_spec k key); [|reflexivity].
    subst. contradiction.
  - unfold inputsRead. cbn.
    intros H; repeat (destruct H as [H|H]; [discriminate H|]); exact H.
  - unfold inputsRead. cbn.
    intros H; repeat (destruct H as [H|H]; [discriminate H|]); exact H.
  - intros. now apply main_ext.
Qed.

Lemma other_inputs_are_not_read_witness :
  main Demo.sys (with_input (Demo.inputs "" "" "") "overwrite" "true")
    Demo.shared
  = main Demo.sys (Demo.inputs "" "" "") Demo.shared.
Proof.
  apply (proj1 (other_inputs_are_not_read Demo.sys (Demo.inputs "" "" "")
                  Demo.shared)).
  unfold inputsRead. cbn.
  intros H; repeat (destruct H as [H|H]; [discriminate H|]); exact H.
Defined.

(** ** A run without a client *)

Lemma offline_ret {A} (a : A) : offline (ret a).
Proof. intros w. now split. Qed.

Lemma offline_logf lv format args : offline (logf lv format args).
Proof. intros w. now split. Qed.

Lemma offline_Fatalf {A} format args : offline (@Fatalf A format args).
Proof. intros w. now split. Qed.

Lemma offline_bind {A B} (m : M A) (k : A -> M B) :
  offline m -> (forall a, offline (k a)) -> offline (bind m k).
Proof.
  intros Hm Hk w. destruct (Hm w) as [Ht Hs].
  unfold bind, world, trace in *.
  destruct (m w) as [[[a| |] w1] t1]; cbn [fst snd] in *; try now split.
  destruct (Hk a w1) as [Ht' Hs']. unfold world, trace in *.
  destruct (k a w1) as [[o w2] t2]. cbn [fst snd] in *.
  rewrite filter_app, Ht, Ht'. split; [reflexivity|congruence].
Qed.

Lemma offline_uploadToDrive sys filename folderId driveFile name mimeType :
  offline (uploadToDrive sys NilService filename folderId driveFile name
             mimeType).
Proof.
  intros w. run_upload.
  destruct (lstat sys filename) as [[|]|]; cbn; try now split.
  destruct (can_open sys filename); cbn; try now split.
  destruct driveFile; now split.
Qed.

Lemma offline_createDriveDirectory sys folderId name :
  offline (createDriveDirectory sys NilService folderId name).
Proof. intros w. rewrite createDriveDirectory_nil. now split. Qed.

Lemma offline_uploadFile sys filename folderId name mimeType overwrite :
  offline (uploadFile sys NilService filename folderId name mimeType overwrite).
Proof.
  intros w. destruct overwrite.
  - rewrite uploadFile_nil. now split.
  - rewrite uploadFile_plain.
    destruct (offline_uploadToDrive sys filename folderId None name mimeType w)
      as [Ht Hs].
    unfold after, world, trace in *; cbn [fst snd] in *. now split.
Qed.

Lemma offline_mirrorDirectories sys segments : forall folderId,
  offline (mirrorDirectories sys NilService folderId segments).
Proof.
  induction segments as [|segment segments IH]; intros folderId;
    cbn [mirrorDirectories].
  - apply offline_ret.
  - apply offline_bind; [apply offline_createDriveDirectory|].
    intros r. destruct (snd r); [apply offline_Fatalf|apply IH].
Qed.

Lemma offline_processFile sys v folderId file :
  svc v = NilService -> offline (processFile sys v folderId file).
Proof.
  intros Hs. unfold processFile. rewrite Hs.
  apply offline_bind; [apply offline_logf|]. intros _.
  apply offline_bind.
  - destruct (mirrorDirectoryStructureFlag v); [|apply offline_ret].
    apply offline_bind; [apply offline_logf|]. intros _.
    apply offline_mirrorDirectories.
  - intros final. apply offline_bind.
    + destruct (String.eqb _ ""); [apply offline_Fatalf|apply offline_ret].
    + intros _. apply offline_bind; [apply offline_uploadFile|].
      intros [e|]; [apply offline_Fatalf|apply offline_ret].
Qed.

Lemma offline_processFiles sys v files :
  svc v = NilService ->
  forall folderId, offline (processFiles sys v folderId files).
Proof.
  intros Hs. induction files as [|file files IH]; intros folderId;
    cbn [processFiles].
  - apply offline_ret.
  - apply offline_bind; [now apply offline_processFile|]. intros c. apply IH.
Qed.

Lemma processFiles_starts sys v folderId file files w :
  exists t,
    trace (processFiles sys v folderId (file :: files) w)
    = Logf LInfo "Processing file %s" [AStr file] :: t.
Proof.
  cbn [processFiles]. unfold bind. rewrite processFile_eq.
  unfold after, outcome, world, trace.
  destruct (bind _ _ w) as [[[c| |] w1] t1]; cbn [fst snd app].
  - destruct (processFiles sys v c files w1) as [[o w2] t2].
    cbn. eexists. reflexivity.
  - eexists. reflexivity.
  - eexists. reflexivity.
Qed.

(** X12.  When [drive.NewService] rejects the credentials the run does not
    end there: the failure is printed and, the other checks passed, the
    loop starts on the first file.  But no call reaches the store and the
    store is as it was when the run ends. *)
Theorem rejected_credentials_send_nothing sys GetInput w :
  (forall decoded,
      base64_decode sys (GetInput credentialsInput) = Some decoded ->
      accepts sys (GoLib.TrimSuffix decoded newline) = false) ->
  filter is_remote (trace (main sys GetInput w)) = [] /\
  store (world (main sys GetInput w)) = store w /\
  (forall file files decoded,
      accepted sys GetInput = Some (file :: files, decoded) ->
      In (Logf LError "creating drive client failed with error: %s"
            [AErr (Cause "drive.NewService")])
        (trace (main sys GetInput w)) /\
      In (Logf LInfo "Processing file %s" [AStr file])
        (trace (main sys GetInput w))).
Proof.
  intros Hrej.
  destruct (accepted sys GetInput) as [[files decoded]|] eqn:E.
  - pose proof (Hrej decoded (accepted_decoded _ _ _ _ E)) as Hno.
    rewrite (main_accepted sys GetInput files decoded w E).
    assert (Hs : svc (varsOf sys GetInput files decoded) = NilService)
      by (unfold varsOf; cbn; now rewrite Hno).
    destruct (offline_bind
                (processFiles sys (varsOf sys GetInput files decoded)
                   (GetInput folderIdInput) files)
                (fun _ => ret tt)
                (offline_processFiles sys _ files Hs _)
                (fun _ => offline_ret tt) w) as [Ht Hst].
    unfold after, world, trace at 1 3 4; cbn [fst snd].
    rewrite filter_app, Ht, app_nil_r.
    split; [apply remote_is_effect, preludeOf_effects|].
    split; [exact Hst|].
    intros file files' decoded' [= -> ->]. split.
    + apply in_or_app. left. unfold preludeOf. rewrite Hno.
      rewrite !in_app_iff. cbn. tauto.
    + apply in_or_app. right.
      destruct (processFiles_starts sys (varsOf sys GetInput (file :: files')
                                           decoded')
                  (GetInput folderIdInput) file files' w) as [t Ht'].
      unfold bind, trace in *.
      destruct (processFiles sys _ (GetInput folderIdInput) (file :: files') w)
        as [[[c| |] w1] t1]; cbn [fst snd] in *; subst t1; now left.
  - destruct (main_rejected sys GetInput w E) as (t & -> & Hf).
    split; [now apply remote_is_effect|]. split; [reflexivity|].
    intros ? ? ? [=].
Qed.

Lemma rejected_credentials_send_nothing_witness :
  let G := with_input (Demo.inputs "" "" "") credentialsInput "rejected" in
  outcome (main Demo.sys G Demo.shared) = Panic /\
  filter is_remote (trace (main Demo.sys G Demo.shared)) = [] /\
  handles (world (main Demo.sys G Demo.shared)) = ["report.txt"].
Proof.
  cbv zeta. split; [reflexivity|]. split; [|reflexivity].
  apply (rejected_credentials_send_nothing Demo.sys
           (with_input (Demo.inputs "" "" "") credentialsInput "rejected")
           Demo.shared).
  intros decoded [= <-]. reflexivity.
Defined.

(** ** The folders of a mirrored path *)

Lemma split_bytes_not_nil sep s : forall cur, GoLib.split_bytes sep cur s <> [].
Proof.
  induction s as [|c s IH]; intros cur; cbn; [discriminate|].
  destruct (Ascii.eqb c sep); [discriminate|apply IH].
Qed.

Lemma upto_last_separator_none r :
  forallb (fun c => negb (GoLib.IsPathSeparator c)) r = true ->
  GoLib.upto_last_separator r = [].
Proof.
  induction r as [|c r IH]; [reflexivity|]. cbn.
  destruct (GoLib.IsPathSeparator c); [discriminate|exact IH].
Qed.

Lemma forallb_rev {A} (p : A -> bool) l : forallb p (rev l) = forallb p l.
Proof.
  induction l as [|x l IH]; [reflexivity|]. cbn.
  rewrite forallb_app, IH. cbn. rewrite andb_true_r. apply andb_comm.
Qed.

(** X13.  The directory structure of a matched path is never empty, and for
    a path without a separator it is the single segment ["."].  So with
    mirroring a file is never uploaded to the configured folder itself: for
    a bare file name the folder of the upload is the one the resolver
    returns for ["."] under the configured folder. *)
Theorem mirroring_never_targets_root sys v file w :
  directoryStructureOf file <> [] /\
  (forallb (fun c => negb (GoLib.IsPathSeparator c))
     (list_ascii_of_string file) = true ->
   directoryStructureOf file = ["."] /\
   (mirrorDirectoryStructureFlag v = true ->
    forall final w1 t,
      folderChoice sys v file w = (Ret final, w1, t) ->
      exists t',
        createDriveDirectory sys (svc v) (originalFolderId v) "." w
        = (Ret (final, None), w1, t'))).
Proof.
  split.
  - unfold directoryStructureOf, GoLib.Split. intros H.
    apply map_eq_nil in H. now apply split_bytes_not_nil in H.
  - intros Hbare.
    assert (E : directoryStructureOf file = ["."]).
    { unfold directoryStructureOf, GoLib.Dir.
      rewrite upto_last_separator_none by now rewrite forallb_rev.
      reflexivity. }
    split; [exact E|].
    intros Hm final w1 t. unfold folderChoice. rewrite Hm, E, bind_logf.
    cbn [mirrorDirectories]. unfold bind, after, outcome, world, trace.
    destruct (createDriveDirectory sys (svc v) (originalFolderId v) "." w)
      as [[[[folder [err|]]| |] w2] t2]; cbn [fst snd]; try discriminate.
    intros [= -> -> _]. eexists. reflexivity.
Qed.

Lemma mirroring_never_targets_root_witness :
  let v := Demo.vars ["report.txt"] false "" false true "" in
  directoryStructureOf "report.txt" = ["."] /\
  exists t',
    createDriveDirectory Demo.sys Client "root" "." Demo.blank
    = (Ret ("new", None),
       mkWorld [mkRemoteObject (mkDriveFile "new" "." folderMimeType ["root"]) ""]
         [] [],
       t').
Proof.
  cbv zeta.
  destruct (mirroring_never_targets_root Demo.sys
              (Demo.vars ["report.txt"] false "" false true "") "report.txt"
              Demo.blank) as [_ H].
  destruct (H eq_refl) as [H1 H2]. split; [exact H1|].
  eapply (H2 eq_refl). vm_compute. reflexivity.
Defined.

(** ** The name that is never empty *)

Lemma Base_not_empty path : GoLib.Base path <> "".
Proof.
  unfold GoLib.Base. destruct (String.eqb path ""); [discriminate|].
  destruct (GoLib.last_element _ []); cbn; discriminate.
Qed.

(** X14.  The name chosen for a file is empty only when the
    complete-source-filename flag is set and the matched path itself is
    empty: a base name is never empty, and the configured name is used only
    when it is not empty.  Without the flag the check for an empty target
    name never ends a run. *)
Theorem target_name_empty_iff v file :
  targetNameOf v file = "" <->
  useCompleteSourceFilenameAsNameFlag v = true /\ file = "".
Proof.
  unfold targetNameOf.
  destruct (useCompleteSourceFilenameAsNameFlag v).
  - split; [now split|tauto].
  - split; [|intros [H _]; discriminate H].
    destruct (useSourceFilename v); cbn [orb].
    + intros H. now apply Base_not_empty in H.
    + destruct (String.eqb_spec (name v) "").
      * intros H. now apply Base_not_empty in H.
      * intros H. contradiction.
Qed.

(** ** Resolving a segment twice *)

(** X15.  A folder the resolver has created is found by the next resolution
    of the same segment under the same parent: when the store answers the
    search with the new folder, the second call returns the identifier the
    first one returned and writes nothing. *)
Theorem resolver_finds_what_it_created sys parent name w :
  let f := mkDriveFile "" name folderMimeType [parent] in
  next_fails w = false ->
  next_fails (drawn w) = false ->
  next_fails (drawn (drawn w)) = false ->
  filter (in_folder parent) (listing sys (folderQuery name) w) = [] ->
  answers sys (folderQuery name) (created sys f None w) = true ->
  let r1 := createDriveDirectory sys Client parent name w in
  let r2 := createDriveDirectory sys Client parent name (world r1) in
  outcome r1 = Ret (fresh_id sys (store w), None) /\
  outcome r2 = outcome r1 /\
  filter is_write (trace r2) = [] /\
  store (world r2) = store (world r1).
Proof.
  intros f H1 H2 H3 Hnone Hans. cbv zeta.
  assert (E1 : createDriveDirectory sys Client parent name w
               = (Ret (fresh_id sys (store w), None),
                  mkWorld (store w ++ [created sys f None w])
                    (tl (tl (faults w))) (handles w),
                  resolveTrace sys parent name w
                  ++ [Logf LInfo "Creating folder: %s" [AStr name];
                      FilesCreate f None])).
  { rewrite createDriveDirectory_search by assumption. cbv zeta.
    assert (fst (foundIn parent (listing sys (folderQuery name) w) (0, ""))
            = 0) as -> by (apply foundIn_fst; now split).
    cbn [Nat.eqb].
    erewrite bind_returns by (rewrite Files_Create_client, H2; reflexivity).
    reflexivity. }
  set (w1 := mkWorld (store w ++ [created sys f None w]) (tl (tl (faults w)))
               (handles w)) in *.
  assert (Hl : filter (in_folder parent) (listing sys (folderQuery name) w1)
               = [meta (created sys f None w)]).
  { unfold listing in Hnone |- *. unfold w1. cbn [store].
    rewrite filter_app, map_app, filter_app, Hnone. cbn [filter].
    rewrite Hans. cbn [map filter app].
    unfold in_folder. cbn. now rewrite String.eqb_refl. }
  assert (E2 : createDriveDirectory sys Client parent name w1
               = (Ret (fresh_id sys (store w), None), drawn w1,
                  resolveTrace sys parent name w1)).
  { rewrite createDriveDirectory_search by exact H3. cbv zeta.
    pose proof (foundIn_fst parent (listing sys (folderQuery name) w1) (0, ""))
      as Hfst.
    pose proof (foundIn_snd parent (listing sys (folderQuery name) w1) (0, ""))
      as Hsnd.
    rewrite Hl in Hsnd, Hfst. unfold last_of in Hsnd. cbn [map last] in Hsnd.
    destruct (Nat.eqb_spec
                (fst (foundIn parent (listing sys (folderQuery name) w1)
                        (0, ""))) 0) as [E|E].
    - apply Hfst in E as [_ E]. discriminate E.
    - rewrite Hsnd. unfold after; cbn. now rewrite app_nil_r. }
  rewrite E1. change (world (Ret (fresh_id sys (store w), @None GoError), w1,
                             resolveTrace sys parent name w
                             ++ [Logf LInfo "Creating folder: %s" [AStr name];
                                 FilesCreate f None])) with w1.
  rewrite E2.
  destruct (resolveTrace_calls sys parent name w1) as [Hw _].
  unfold outcome, world, trace; cbn [fst snd]. now repeat split.
Qed.

Lemma resolver_finds_what_it_created_witness :
  let r1 := createDriveDirectory Demo.sys Client "root" "b" Demo.twins in
  let r2 := createDriveDirectory Demo.sys Client "root" "b" (world r1) in
  outcome r1 = Ret ("new+++", None) /\ outcome r2 = outcome r1 /\
  filter is_write (trace r2) = [] /\ store (world r2) = store (world r1).
Proof.
  apply (resolver_finds_what_it_created Demo.sys "root" "b" Demo.twins);
    reflexivity.
Defined.

(** ** From a matched file to the object in the store *)

Lemma withPrefix_eq v targetName :
  withPrefix v targetName = (filenamePrefix v ++ targetName)%string.
Proof.
  unfold withPrefix. now destruct (String.eqb_spec (filenamePrefix v) "") as [->|].
Qed.

(** X16.  Without mirroring and without the overwrite flag, one turn of the
    loop on a file that opens, with a store that answers, adds one object to
    the store: its name is the prefix followed by the name chosen for the
    file, its mime type the configured one, its one parent the configured
    folder, its content that of the file; the turn returns the configured
    folder. *)
Theorem plain_turn_creates_prefixed_object sys v folderId file w :
  mirrorDirectoryStructureFlag v = false ->
  overwriteFlag v = false ->
  svc v = Client ->
  targetNameOf v file <> "" ->
  lstat sys file = Some false ->
  can_open sys file = true ->
  next_fails w = false ->
  let r := processFile sys v folderId file w in
  outcome r = Ret (originalFolderId v) /\
  store (world r)
  = store w
    ++ [mkRemoteObject
          (mkDriveFile (fresh_id sys (store w))
             (filenamePrefix v ++ targetNameOf v file)%string (mimeType v)
             [originalFolderId v])
          (content sys file)] /\
  filter is_remote (trace r)
  = [FilesCreate
       (mkDriveFile "" (filenamePrefix v ++ targetNameOf v file)%string
          (mimeType v) [originalFolderId v])
       (Some file)].
Proof.
  intros Hm Ho Hs Hn Hl Hc Hok. cbv zeta.
  rewrite processFile_eq. unfold folderChoice. rewrite Hm, bind_ret.
  unfold nameAndUpload.
  destruct (String.eqb_spec (targetNameOf v file) ""); [contradiction|].
  rewrite bind_ret, Ho, Hs, withPrefix_eq.
  erewrite bind_returns
    by (rewrite uploadFile_plain, uploadToDrive_creates by assumption;
        reflexivity).
  now repeat split.
Qed.

Lemma plain_turn_creates_prefixed_object_witness :
  let v := Demo.vars ["a/report.txt"; "b/notes.txt"] false "given" false false
             "v1-" in
  map meta (store (world (processFile Demo.sys v "root" "a/report.txt"
                            Demo.blank)))
  = [mkDriveFile "new" "v1-report.txt" "text/plain" ["root"]].
Proof.
  cbv zeta.
  assert (Hn : targetNameOf
                 (Demo.vars ["a/report.txt"; "b/notes.txt"] false "given" false
                    false "v1-") "a/report.txt" <> "") by discriminate.
  pose proof (plain_turn_creates_prefixed_object Demo.sys
                (Demo.vars ["a/report.txt"; "b/notes.txt"] false "given" false
                   false "v1-") "root" "a/report.txt" Demo.blank
                eq_refl eq_refl eq_refl Hn eq_refl eq_refl eq_refl) as H.
  cbv zeta in H. destruct H as (_ & H & _).
  rewrite H. reflexivity.
Defined.
